(** * PhoneFlip client: listing query, pagination, suggestions and session logic

    A shallow embedding of the state handling of the [App] component
    (frontend/src/App.js and its variant with the search-suggestion engine):
    [loadListings], [loadMoreListings], [loadCurrentUser], [handleLogin],
    [handleSearch], [handleSearchInput], [toggleFavorite], [sendMessage],
    [submitReview] and the two [useEffect] hooks on [token] and on the filter
    fields.  Line numbers are those of frontend/src/App.js unless said
    otherwise.

    Modelling conventions.
    - JavaScript strings are [string] (sequences of 8-bit characters);
      [toLowerCase] lowers the letters A-Z only.
    - A JavaScript object used as a key/value bag is the list of its entries
      in insertion order ([Js.obj]), because [Object.entries] and
      [URLSearchParams] are order sensitive; [Js.wf] says when the list
      stands for an object.
    - An [async] handler is a program of the free monad [Prog]: state
      updates, awaited HTTP calls answered by a [Server], and exceptions with
      [try]/[catch]/[finally].  A handler reads the React state through the
      snapshot captured by its closure and writes through the setters. *)

From Stdlib Require Import String Ascii List Bool Arith PeanoNat NArith Lia.
From Stdlib Require Import DecimalString.
From Stdlib Require Import ZArith Permutation Sorted.
Import ListNotations.
Local Open Scope string_scope.
Local Open Scope list_scope.

(* ===================================================================== *)
(** ** JavaScript values used by the component *)
(* ===================================================================== *)

Module Js.

(** Truthiness of a string: only the empty string is falsy. *)
Definition truthy (s : string) : bool :=
  match s with
  | EmptyString => false
  | String _ _ => true
  end.

(** [a || b] on strings. *)
Definition or (a b : string) : string := if truthy a then a else b.

(** [a || b] where [a] may be [undefined]. *)
Definition or_undef (a : option string) (b : string) : string :=
  match a with
  | Some s => or s b
  | None => b
  end.

(** [String(n)] for a non-negative integer. *)
Definition of_nat (n : nat) : string := NilZero.string_of_uint (Nat.to_uint n).

(** [c.toLowerCase()] on one character. *)
Definition lower_ascii (c : ascii) : ascii :=
  let n := nat_of_ascii c in
  if Nat.leb 65 n && Nat.leb n 90 then ascii_of_nat (n + 32) else c.

(** [s.toLowerCase()] *)
Fixpoint toLowerCase (s : string) : string :=
  match s with
  | EmptyString => EmptyString
  | String c s' => String (lower_ascii c) (toLowerCase s')
  end.

(** [s.startsWith(p)] *)
Fixpoint startsWith (s p : string) {struct p} : bool :=
  match p, s with
  | EmptyString, _ => true
  | String _ _, EmptyString => false
  | String a p', String b s' => Ascii.eqb a b && startsWith s' p'
  end.

(** [s.includes(t)]: [t] occurs in [s] as a contiguous substring. *)
Fixpoint includes (s t : string) : bool :=
  startsWith s t ||
  match s with
  | EmptyString => false
  | String _ s' => includes s' t
  end.

(** [s.slice(n)] for [n >= 0]. *)
Fixpoint drop (n : nat) (s : string) : string :=
  match n, s with
  | O, _ => s
  | S _, EmptyString => EmptyString
  | S n', String _ s' => drop n' s'
  end.

(** [s.replace(pat, rep)] with a string pattern: the first occurrence. *)
Fixpoint replace (pat rep s : string) : string :=
  if startsWith s pat then String.append rep (drop (String.length pat) s)
  else match s with
       | EmptyString => EmptyString
       | String c s' => String c (replace pat rep s')
       end.

(** An object with string values, as the list of its entries. *)
Definition obj : Type := list (string * string).

Definition keys (o : obj) : list string := map fst o.

(** [o[k]], [None] standing for [undefined]. *)
Fixpoint get (k : string) (o : obj) : option string :=
  match o with
  | [] => None
  | (k', v) :: o' => if k' =? k then Some v else get k o'
  end.

Definition has (k : string) (o : obj) : bool :=
  match get k o with Some _ => true | None => false end.

(** [o[k] = v]: an existing key keeps its place, a new key goes last. *)
Fixpoint set (k v : string) (o : obj) : obj :=
  match o with
  | [] => [(k, v)]
  | (k', v') :: o' => if k' =? k then (k', v) :: o' else (k', v') :: set k v o'
  end.

(** [delete o[k]] *)
Fixpoint remove (k : string) (o : obj) : obj :=
  match o with
  | [] => []
  | (k', v') :: o' => if k' =? k then o' else (k', v') :: remove k o'
  end.

(** [{...a, ...b}] *)
Definition spread (a b : obj) : obj :=
  fold_left (fun acc kv => set (fst kv) (snd kv) acc) b a.

(** The keys of an object are pairwise distinct. *)
Definition distinct_keys (o : obj) : Prop := NoDup (keys o).

(** [c] is a decimal digit. *)
Definition is_digit (c : ascii) : bool :=
  let n := nat_of_ascii c in
  Nat.leb 48 n && Nat.leb n 57.

Fixpoint all_digits (s : string) : bool :=
  match s with
  | EmptyString => true
  | String c s' => is_digit c && all_digits s'
  end.

(** [k] is written with digits only, as an array index is. *)
Definition index_like (k : string) : bool := truthy k && all_digits k.

(** The objects this model is faithful to: distinct keys, none of them
    index-like.  JavaScript lists index-like keys first, in numeric order,
    whatever the insertion order; the list of entries does not. *)
Definition wf (o : obj) : Prop :=
  distinct_keys o /\ Forall (fun k => index_like k = false) (keys o).

End Js.

(* ===================================================================== *)
(** ** Data model *)
(* ===================================================================== *)

Record Filters : Type := mkFilters {
  brand : string;
  city : string;
  condition : string;
  search : string;
  minPrice : string;
  maxPrice : string;
  sortBy : string
}.

(** [useState] initial value of [filters]. *)
Definition initialFilters : Filters :=
  mkFilters "" "" "" "" "" "" "recent".

(** [Object.entries(filters)], in the order of the object literal. *)
Definition entries (f : Filters) : Js.obj :=
  [ ("brand", brand f); ("city", city f); ("condition", condition f);
    ("search", search f); ("minPrice", minPrice f); ("maxPrice", maxPrice f);
    ("sortBy", sortBy f) ].

(** A listing as the backend returns it (the fields the views read). *)
Module Listing.
Record t : Type := mk {
  id : nat;
  title : string;
  brand : string;
  condition : string;
  price : N;
  negotiable : bool;
  city : string;
  images : list string;
  postedDate : string
}.
End Listing.

Module User.
Record t : Type := mk {
  id : nat;
  name : string;
  email : string;
  profile_picture : string;
  user_type : string
}.
End User.

Module Conversation.
Record t : Type := mk {
  id : nat;
  other_user : User.t;
  listing : Listing.t;
  last_message : string;
  unread_count : nat
}.
End Conversation.

Module Message.
Record t : Type := mk {
  content : string;
  message_type : string;
  offer_amount : option nat
}.
End Message.

Module Review.
Record t : Type := mk {
  rating : nat;
  comment : string
}.
End Review.

(** The value given to [setToast] by [showToast]. *)
Module Toast.
Record t : Type := mk {
  message : string;
  type : string
}.
End Toast.

(** The [useState] variables of [App] that the handlers below read or write. *)
Record State : Type := mkState {
  currentPage : string;
  user : option User.t;
  token : option string;
  listings : list Listing.t;
  filters : Filters;
  searchHistory : list string;
  favorites : list Listing.t;
  conversations : list Conversation.t;
  messages : list Message.t;
  selectedConversation : option Conversation.t;
  reviews : list Review.t;
  toast : option Toast.t;
  loading : bool;
  page : nat;
  hasMoreListings : bool;
  searchSuggestions : list string;
  showSuggestions : bool;
  searchQuery : string
}.

Definition setCurrentPage (v : string) (s : State) : State :=
  mkState v (user s) (token s) (listings s) (filters s) (searchHistory s)
    (favorites s) (conversations s) (messages s) (selectedConversation s)
    (reviews s) (toast s) (loading s) (page s) (hasMoreListings s)
    (searchSuggestions s) (showSuggestions s) (searchQuery s).

Definition setUser (v : option User.t) (s : State) : State :=
  mkState (currentPage s) v (token s) (listings s) (filters s)
    (searchHistory s) (favorites s) (conversations s) (messages s)
    (selectedConversation s) (reviews s) (toast s) (loading s) (page s)
    (hasMoreListings s) (searchSuggestions s) (showSuggestions s)
    (searchQuery s).

Definition setToken (v : option string) (s : State) : State :=
  mkState (currentPage s) (user s) v (listings s) (filters s)
    (searchHistory s) (favorites s) (conversations s) (messages s)
    (selectedConversation s) (reviews s) (toast s) (loading s) (page s)
    (hasMoreListings s) (searchSuggestions s) (showSuggestions s)
    (searchQuery s).

Definition setListings (v : list Listing.t) (s : State) : State :=
  mkState (currentPage s) (user s) (token s) v (filters s) (searchHistory s)
    (favorites s) (conversations s) (messages s) (selectedConversation s)
    (reviews s) (toast s) (loading s) (page s) (hasMoreListings s)
    (searchSuggestions s) (showSuggestions s) (searchQuery s).

Definition setFilters (v : Filters) (s : State) : State :=
  mkState (currentPage s) (user s) (token s) (listings s) v
    (searchHistory s) (favorites s) (conversations s) (messages s)
    (selectedConversation s) (reviews s) (toast s) (loading s) (page s)
    (hasMoreListings s) (searchSuggestions s) (showSuggestions s)
    (searchQuery s).

Definition setSearchHistory (v : list string) (s : State) : State :=
  mkState (currentPage s) (user s) (token s) (listings s) (filters s) v
    (favorites s) (conversations s) (messages s) (selectedConversation s)
    (reviews s) (toast s) (loading s) (page s) (hasMoreListings s)
    (searchSuggestions s) (showSuggestions s) (searchQuery s).

Definition setFavorites (v : list Listing.t) (s : State) : State :=
  mkState (currentPage s) (user s) (token s) (listings s) (filters s)
    (searchHistory s) v (conversations s) (messages s)
    (selectedConversation s) (reviews s) (toast s) (loading s) (page s)
    (hasMoreListings s) (searchSuggestions s) (showSuggestions s)
    (searchQuery s).

Definition setConversations (v : list Conversation.t) (s : State) : State :=
  mkState (currentPage s) (user s) (token s) (listings s) (filters s)
    (searchHistory s) (favorites s) v (messages s) (selectedConversation s)
    (reviews s) (toast s) (loading s) (page s) (hasMoreListings s)
    (searchSuggestions s) (showSuggestions s) (searchQuery s).

Definition setMessages (v : list Message.t) (s : State) : State :=
  mkState (currentPage s) (user s) (token s) (listings s) (filters s)
    (searchHistory s) (favorites s) (conversations s) v
    (selectedConversation s) (reviews s) (toast s) (loading s) (page s)
    (hasMoreListings s) (searchSuggestions s) (showSuggestions s)
    (searchQuery s).

Definition setReviews (v : list Review.t) (s : State) : State :=
  mkState (currentPage s) (user s) (token s) (listings s) (filters s)
    (searchHistory s) (favorites s) (conversations s) (messages s)
    (selectedConversation s) v (toast s) (loading s) (page s)
    (hasMoreListings s) (searchSuggestions s) (showSuggestions s)
    (searchQuery s).

Definition setToast (v : option Toast.t) (s : State) : State :=
  mkState (currentPage s) (user s) (token s) (listings s) (filters s)
    (searchHistory s) (favorites s) (conversations s) (messages s)
    (selectedConversation s) (reviews s) v (loading s) (page s)
    (hasMoreListings s) (searchSuggestions s) (showSuggestions s)
    (searchQuery s).

Definition setLoading (v : bool) (s : State) : State :=
  mkState (currentPage s) (user s) (token s) (listings s) (filters s)
    (searchHistory s) (favorites s) (conversations s) (messages s)
    (selectedConversation s) (reviews s) (toast s) v (page s)
    (hasMoreListings s) (searchSuggestions s) (showSuggestions s)
    (searchQuery s).

Definition setPage (v : nat) (s : State) : State :=
  mkState (currentPage s) (user s) (token s) (listings s) (filters s)
    (searchHistory s) (favorites s) (conversations s) (messages s)
    (selectedConversation s) (reviews s) (toast s) (loading s) v
    (hasMoreListings s) (searchSuggestions s) (showSuggestions s)
    (searchQuery s).

Definition setHasMoreListings (v : bool) (s : State) : State :=
  mkState (currentPage s) (user s) (token s) (listings s) (filters s)
    (searchHistory s) (favorites s) (conversations s) (messages s)
    (selectedConversation s) (reviews s) (toast s) (loading s) (page s) v
    (searchSuggestions s) (showSuggestions s) (searchQuery s).

Definition setSearchSuggestions (v : list string) (s : State) : State :=
  mkState (currentPage s) (user s) (token s) (listings s) (filters s)
    (searchHistory s) (favorites s) (conversations s) (messages s)
    (selectedConversation s) (reviews s) (toast s) (loading s) (page s)
    (hasMoreListings s) v (showSuggestions s) (searchQuery s).

Definition setShowSuggestions (v : bool) (s : State) : State :=
  mkState (currentPage s) (user s) (token s) (listings s) (filters s)
    (searchHistory s) (favorites s) (conversations s) (messages s)
    (selectedConversation s) (reviews s) (toast s) (loading s) (page s)
    (hasMoreListings s) (searchSuggestions s) v (searchQuery s).

Definition setSearchQuery (v : string) (s : State) : State :=
  mkState (currentPage s) (user s) (token s) (listings s) (filters s)
    (searchHistory s) (favorites s) (conversations s) (messages s)
    (selectedConversation s) (reviews s) (toast s) (loading s) (page s)
    (hasMoreListings s) (searchSuggestions s) (showSuggestions s) v.

(** [useState] initial values; [token] starts from [localStorage]. *)
Definition initialState (storedToken : option string) : State :=
  {| currentPage := "home"; user := None; token := storedToken;
     listings := []; filters := initialFilters;
     searchHistory := ["iPhone 13"; "Samsung S24"; "Xiaomi Note"];
     favorites := []; conversations := []; messages := [];
     selectedConversation := None; reviews := []; toast := None;
     loading := false; page := 1; hasMoreListings := true;
     searchSuggestions := []; showSuggestions := false; searchQuery := "" |}.

(* ===================================================================== *)
(** ** The backend and the browser *)
(* ===================================================================== *)

(** The body of [POST /auth/login]. *)
Record LoginData : Type := mkLoginData {
  login_email : option string;
  login_phone : option string;
  login_password : string;
  login_method : string
}.

(** [response.data] of the auth endpoints. *)
Record AuthResponse : Type := mkAuthResponse {
  access_token : string;
  auth_user : User.t
}.

(** The body of [POST /messages]. *)
Record MessageBody : Type := mkMessageBody {
  receiver_id : nat;
  msg_listing_id : nat;
  msg_content : string;
  msg_type : string;
  msg_offer_amount : option nat
}.

(** The body of [POST /reviews]. *)
Record ReviewBody : Type := mkReviewBody {
  reviewed_user_id : nat;
  rev_listing_id : nat;
  rev_rating : nat;
  rev_comment : string
}.

(** The HTTP calls the modelled handlers make through axios. *)
Inductive Call : Type :=
| GET_auth_me
| GET_listings (params : list (string * string))
| POST_auth_login (loginData : LoginData)
| GET_favorites
| DELETE_favorites (listingId : nat)
| POST_favorites (listingId : nat)
| POST_messages (body : MessageBody)
| GET_conversation_messages (conversationId : nat)
| GET_conversations
| POST_reviews (body : ReviewBody)
| GET_user_reviews (userId : nat).

(** The type of [response.data] for each call. *)
Definition resp (c : Call) : Type :=
  match c with
  | GET_auth_me => User.t
  | GET_listings _ => list Listing.t
  | POST_auth_login _ => AuthResponse
  | GET_favorites => list Listing.t
  | DELETE_favorites _ => unit
  | POST_favorites _ => unit
  | POST_messages _ => unit
  | GET_conversation_messages _ => list Message.t
  | GET_conversations => list Conversation.t
  | POST_reviews _ => unit
  | GET_user_reviews _ => list Review.t
  end.

(** A rejected axios promise: [error.response?.data?.detail]. *)
Record AxiosError : Type := mkError {
  detail : option string
}.

(** What lies outside the React state: durable storage, the axios default
    [Authorization] header, the calls sent so far and the pending
    [setTimeout] delays. *)
Record World : Type := mkWorld {
  st : State;
  localStorage : Js.obj;
  authorization : option string;
  net : list Call;
  timers : list nat
}.

Definition upd_st (f : State -> State) (w : World) : World :=
  mkWorld (f (st w)) (localStorage w) (authorization w) (net w) (timers w).

Definition upd_localStorage (f : Js.obj -> Js.obj) (w : World) : World :=
  mkWorld (st w) (f (localStorage w)) (authorization w) (net w) (timers w).

Definition set_authorization (h : option string) (w : World) : World :=
  mkWorld (st w) (localStorage w) h (net w) (timers w).

Definition sent (c : Call) (w : World) : World :=
  mkWorld (st w) (localStorage w) (authorization w) (net w ++ [c]) (timers w).

Definition schedule (ms : nat) (w : World) : World :=
  mkWorld (st w) (localStorage w) (authorization w) (net w) (timers w ++ [ms]).

(** The backend: the answer to the [n]-th call of a session. *)
Definition Server : Type := nat -> forall c : Call, resp c + AxiosError.

(* ===================================================================== *)
(** ** The listings request ([loadListings], lines 122-140) *)
(* ===================================================================== *)

(** The name under which the entry [key] is appended to the query. *)
Definition param_name (key : string) : string :=
  if (key =? "minPrice") || (key =? "maxPrice")
  then Js.replace "Price" "_price" key
  else if key =? "sortBy" then "sort_by" else key.

(** The body of the [forEach] over [Object.entries({...filters, ...searchFilters})]. *)
Definition append_entry (params : Js.obj) (kv : string * string) : Js.obj :=
  let (key, value) := kv in
  if Js.truthy value && negb (key =? "search")
  then params ++ [(param_name key, value)]
  else params.

(** [params] when the request is sent: a [URLSearchParams] is the list of
    its appended pairs. *)
Definition listing_params (filters : Filters) (searchFilters : Js.obj) (pageNum : nat)
  : list (string * string) :=
  let params := fold_left append_entry (Js.spread (entries filters) searchFilters) [] in
  let s := Js.or_undef (Js.get "search" searchFilters) (search filters) in
  let params := if Js.truthy s then params ++ [("search", s)] else params in
  let params := params ++ [("page", Js.of_nat pageNum)] in
  params ++ [("limit", "20")].

(* ===================================================================== *)
(** ** Handlers as programs *)
(* ===================================================================== *)

Set Implicit Arguments.

(** A handler body.  [Upd] is a setter call or a browser side effect;
    [Await] sends a call and resumes with its answer; [Throw] is a raised
    exception; [Fork] is a call of an [async] function that is not awaited;
    [Rerender] resumes in the closure of the next render. *)
Inductive Prog (A : Type) : Type :=
| Ret (a : A)
| Throw (e : AxiosError)
| Upd (f : World -> World) (k : Prog A)
| Await (c : Call) (k : resp c + AxiosError -> Prog A)
| Fork (child : Prog unit) (k : Prog A)
| Rerender (k : State -> Prog A).

Arguments Throw {A} e.
Arguments Rerender {A} k.

Fixpoint bind {A B : Type} (p : Prog A) (f : A -> Prog B) : Prog B :=
  match p with
  | Ret a => f a
  | Throw e => Throw e
  | Upd u k => Upd u (bind k f)
  | Await c k => Await c (fun r => bind (k r) f)
  | Fork child k => Fork child (bind k f)
  | Rerender k => Rerender (fun s => bind (k s) f)
  end.

Declare Scope prog_scope.
Delimit Scope prog_scope with prog.
Bind Scope prog_scope with Prog.
Notation "x <- p ;; q" := (bind p (fun x => q))
  (at level 61, p at next level, right associativity) : prog_scope.
Notation "p ;; q" := (bind p (fun _ => q))
  (at level 61, right associativity) : prog_scope.
Local Open Scope prog_scope.

(** [try { p } catch (error) { h error }] *)
Fixpoint try_catch {A : Type} (p : Prog A) (h : AxiosError -> Prog A) : Prog A :=
  match p with
  | Ret a => Ret a
  | Throw e => h e
  | Upd u k => Upd u (try_catch k h)
  | Await c k => Await c (fun r => try_catch (k r) h)
  | Fork child k => Fork child (try_catch k h)
  | Rerender k => Rerender (fun s => try_catch (k s) h)
  end.

(** [try { p } finally { fin }] *)
Fixpoint try_finally {A : Type} (p : Prog A) (fin : Prog unit) : Prog A :=
  match p with
  | Ret a => fin ;; Ret a
  | Throw e => fin ;; Throw e
  | Upd u k => Upd u (try_finally k fin)
  | Await c k => Await c (fun r => try_finally (k r) fin)
  | Fork child k => Fork child (try_finally k fin)
  | Rerender k => Rerender (fun s => try_finally (k s) fin)
  end.

(** [await axios.<method>(url)]: a rejected promise is re-thrown. *)
Definition axios (c : Call) : Prog (resp c) :=
  Await c (fun r => match r with
                    | inl data => Ret data
                    | inr error => Throw error
                    end).

(** Running a program against a backend.  An un-awaited child is run up to
    its end before its parent goes on; its outcome is dropped. *)
Fixpoint run {A : Type} (p : Prog A) (srv : Server) (w : World)
  : World * (A + AxiosError) :=
  match p with
  | Ret a => (w, inl a)
  | Throw e => (w, inr e)
  | Upd u k => run k srv (u w)
  | Await c k => run (k (srv (length (net w)) c)) srv (sent c w)
  | Fork child k => run k srv (fst (run child srv w))
  | Rerender k => run (k (st w)) srv w
  end.

(** An event: the handler closes over the state of the current render. *)
Definition invoke (h : State -> Prog unit) (srv : Server) (w : World) : World :=
  fst (run (h (st w)) srv w).

(** A setter call of [useState]. *)
Definition setState (f : State -> State) : Prog unit := Upd (upd_st f) (Ret tt).

(** Any other side effect on the browser. *)
Definition effect (f : World -> World) : Prog unit := Upd f (Ret tt).

(** [showToast] (lines 399-402): the toast is cleared by a timer 3 s later. *)
Definition showToast (message type : string) : Prog unit :=
  setState (setToast (Some (Toast.mk message type))) ;;
  effect (schedule 3000).

(** [connectWebSocket] (lines 65-71) only writes to the console. *)
Definition connectWebSocket (c : State) : Prog unit := Ret tt.

(** [loadCurrentUser] (lines 51-62) *)
Definition loadCurrentUser (c : State) : Prog unit :=
  try_catch
    (response <- axios GET_auth_me ;;
     setState (setUser (Some response)) ;;
     connectWebSocket c)
    (fun error =>
       setState (setToken None) ;;
       effect (upd_localStorage (Js.remove "token"))).

(** The body of [useEffect(..., [token])] (lines 42-49). *)
Definition effect_token (c : State) : Prog unit :=
  match token c with
  | Some t =>
      if Js.truthy t
      then effect (set_authorization (Some (String.append "Bearer " t))) ;;
           Fork (loadCurrentUser c) (Ret tt)
      else effect (set_authorization None)
  | None => effect (set_authorization None)
  end.

(** [loadListings] (lines 119-159) *)
Definition loadListings (c : State) (searchFilters : Js.obj) (pageNum : nat)
  (append : bool) : Prog unit :=
  try_finally
    (try_catch
       (setState (setLoading true) ;;
        let params := listing_params (filters c) searchFilters pageNum in
        response <- axios (GET_listings params) ;;
        (if append
         then setState (fun s => setListings (listings s ++ response) s)
         else setState (setListings response)) ;;
        setState (setHasMoreListings (length response =? 20)%nat) ;;
        setState (setPage pageNum))
       (fun error =>
          showToast "Error loading listings" "error" ;;
          setState (setListings [])))
    (setState (setLoading false)).

(** [loadMoreListings] (lines 161-165) *)
Definition loadMoreListings (c : State) : Prog unit :=
  if hasMoreListings c && negb (loading c)
  then Fork (loadListings c [] (page c + 1) true) (Ret tt)
  else Ret tt.

(** The dependency array of the listings effect (line 83) is unchanged. *)
Definition same_listing_deps (f g : Filters) : bool :=
  (brand f =? brand g) && (city f =? city g) &&
  (condition f =? condition g) && (sortBy f =? sortBy g).

(** [useEffect(() => { loadListings(); }, [filters.brand, filters.city,
    filters.condition, filters.sortBy])] (lines 81-83), after a render whose
    previous render had the filters [prev]. *)
Definition effect_filters (prev : Filters) : Prog unit :=
  Rerender (fun c =>
    if same_listing_deps prev (filters c) then Ret tt
    else Fork (loadListings c [] 1 false) (Ret tt)).

(** A filter control: [setFilters(next)] followed by the next render. *)
Definition changeFilters (next : Filters) (c : State) : Prog unit :=
  setState (setFilters next) ;;
  effect_filters (filters c).

(** [loadFavorites] (lines 167-174) *)
Definition loadFavorites (c : State) : Prog unit :=
  try_catch
    (response <- axios GET_favorites ;;
     setState (setFavorites response))
    (fun error => Ret tt).

(** [loadConversations] (lines 176-183) *)
Definition loadConversations (c : State) : Prog unit :=
  try_catch
    (response <- axios GET_conversations ;;
     setState (setConversations response))
    (fun error => Ret tt).

(** [loadMessages] (lines 185-192) *)
Definition loadMessages (c : State) (conversationId : nat) : Prog unit :=
  try_catch
    (response <- axios (GET_conversation_messages conversationId) ;;
     setState (setMessages response))
    (fun error => Ret tt).

(** [loadUserReviews] (lines 212-219) *)
Definition loadUserReviews (c : State) (userId : nat) : Prog unit :=
  try_catch
    (response <- axios (GET_user_reviews userId) ;;
     setState (setReviews response))
    (fun error => Ret tt).

(** [handleLogin] (lines 222-238) *)
Definition handleLogin (loginData : LoginData) (c : State) : Prog unit :=
  try_finally
    (try_catch
       (setState (setLoading true) ;;
        response <- axios (POST_auth_login loginData) ;;
        setState (setToken (Some (access_token response))) ;;
        setState (setUser (Some (auth_user response))) ;;
        effect (upd_localStorage (Js.set "token" (access_token response))) ;;
        showToast "Login successful!" "success" ;;
        setState (setCurrentPage "home"))
       (fun error =>
          showToast (Js.or_undef (detail error) "Login failed") "error"))
    (setState (setLoading false)).

(** [{...prev, search: value}] *)
Definition with_search (value : string) (f : Filters) : Filters :=
  mkFilters (brand f) (city f) (condition f) value (minPrice f) (maxPrice f)
            (sortBy f).

(** [handleSearch] (lines 293-306), called with the term [searchTerm]. *)
Definition handleSearch (searchTerm : string) (c : State) : Prog unit :=
  let searchParams : Js.obj :=
    if Js.truthy searchTerm then [("search", searchTerm)] else [] in
  (if Js.truthy searchTerm && negb (existsb (String.eqb searchTerm) (searchHistory c))
   then setState (setSearchHistory (searchTerm :: firstn 4 (searchHistory c)))
   else Ret tt) ;;
  setState (fun s => setFilters (with_search searchTerm (filters s)) s) ;;
  Fork (loadListings c searchParams 1 false)
       (setState (setCurrentPage "searchResults")).

(** [toggleFavorite] (lines 328-349) *)
Definition toggleFavorite (listingId : nat) (c : State) : Prog unit :=
  match user c with
  | None => showToast "Please login to add favorites" "error"
  | Some _ =>
      try_catch
        (let isFavorited :=
           existsb (fun fav => (Listing.id fav =? listingId)%nat) (favorites c) in
         (if isFavorited
          then axios (DELETE_favorites listingId) ;;
               showToast "Removed from favorites" "info"
          else axios (POST_favorites listingId) ;;
               showToast "Added to favorites" "success") ;;
         Fork (loadFavorites c) (Ret tt))
        (fun error => showToast "Error updating favorites" "error")
  end.

(** [sendMessage] (lines 352-374) *)
Definition sendMessage (receiverId listingId : nat) (content messageType : string)
  (offerAmount : option nat) (c : State) : Prog unit :=
  match user c with
  | None => showToast "Please login to send messages" "error"
  | Some _ =>
      try_catch
        (axios (POST_messages
                  (mkMessageBody receiverId listingId content messageType offerAmount)) ;;
         match selectedConversation c with
         | Some conv =>
             Fork (loadMessages c (Conversation.id conv))
                  (Fork (loadConversations c) (Ret tt))
         | None => Fork (loadConversations c) (Ret tt)
         end)
        (fun error => showToast "Error sending message" "error")
  end.

(** [submitReview] (lines 377-396) *)
Definition submitReview (reviewedUserId listingId rating : nat) (comment : string)
  (c : State) : Prog unit :=
  match user c with
  | None => showToast "Please login to submit reviews" "error"
  | Some _ =>
      try_catch
        (axios (POST_reviews (mkReviewBody reviewedUserId listingId rating comment)) ;;
         showToast "Review submitted successfully" "success" ;;
         Fork (loadUserReviews c reviewedUserId) (Ret tt))
        (fun error =>
           showToast (Js.or_undef (detail error) "Error submitting review") "error")
  end.

(** The catalog of model names of the suggestion engine (lines 108-116 of
    the variant with suggestions). *)
Definition phoneModels : list string :=
  [ "iPhone 15 Pro Max"; "iPhone 15 Pro"; "iPhone 15"; "iPhone 14 Pro Max";
    "iPhone 14 Pro"; "iPhone 14"; "iPhone 13 Pro Max"; "iPhone 13 Pro";
    "iPhone 13";
    "Samsung Galaxy S24 Ultra"; "Samsung Galaxy S24+"; "Samsung Galaxy S24";
    "Samsung Galaxy S23 Ultra"; "Samsung Galaxy S23+"; "Samsung Galaxy S23";
    "Samsung Galaxy Note 20 Ultra"; "Samsung Galaxy A54"; "Samsung Galaxy A34";
    "Samsung Galaxy A14";
    "Google Pixel 8 Pro"; "Google Pixel 8"; "Google Pixel 7 Pro";
    "Google Pixel 7"; "Google Pixel 6 Pro";
    "OnePlus 12"; "OnePlus 11"; "OnePlus 10 Pro"; "OnePlus Nord 3";
    "OnePlus Nord CE 3";
    "Xiaomi 14 Pro"; "Xiaomi 14"; "Xiaomi 13 Pro"; "Xiaomi Redmi Note 13 Pro";
    "Xiaomi Redmi Note 13"; "Xiaomi Redmi Note 12 Pro";
    "Nothing Phone (2)"; "Nothing Phone (1)"; "Realme GT 6"; "Realme 12 Pro+";
    "Vivo V30 Pro"; "Vivo V30"; "Oppo Reno 11 Pro"; "Oppo Reno 11" ].

(** [handleSearchInput] (lines 119-132 of the variant with suggestions) *)
Definition handleSearchInput (value : string) (c : State) : Prog unit :=
  setState (setSearchQuery value) ;;
  setState (setFilters (with_search value (filters c))) ;;
  if (0 <? String.length value)%nat
  then
    let suggestions :=
      firstn 6 (filter (fun model =>
                          Js.includes (Js.toLowerCase model) (Js.toLowerCase value))
                       phoneModels) in
    setState (setSearchSuggestions suggestions) ;;
    setState (setShowSuggestions true)
  else setState (setShowSuggestions false).

Unset Implicit Arguments.

(* ===================================================================== *)
(** ** Observations *)
(* ===================================================================== *)

(** The call that [loadListings] sends from a render with state [c]. *)
Definition listings_request (c : State) (searchFilters : Js.obj) (pageNum : nat)
  : Call :=
  GET_listings (listing_params (filters c) searchFilters pageNum).

(** The world after [loadListings] has run to its end. *)
Definition after_loadListings (c : State) (searchFilters : Js.obj) (pageNum : nat)
  (append : bool) (srv : Server) (w : World) : World :=
  fst (run (loadListings c searchFilters pageNum append) srv w).

(** The world after the "load more" button handler. *)
Definition after_loadMore (srv : Server) (w : World) : World :=
  invoke loadMoreListings srv w.

(** The world after a filter control has stored [next] and React has run the
    effects of the next render. *)
Definition after_changeFilters (next : Filters) (srv : Server) (w : World) : World :=
  invoke (changeFilters next) srv w.

(** The world after a keystroke in the search box. *)
Definition after_searchInput (value : string) (srv : Server) (w : World) : World :=
  invoke (handleSearchInput value) srv w.

(** The world after the login form was submitted. *)
Definition after_login (loginData : LoginData) (srv : Server) (w : World) : World :=
  invoke (handleLogin loginData) srv w.

(** The world after the effect on [token] has run. *)
Definition after_token_effect (srv : Server) (w : World) : World :=
  invoke effect_token srv w.

(* --------------------------------------------------------------------- *)
(** *** Vocabulary of the statements *)

(** One of the four fields of the dependency array differs. *)
Definition listing_deps_changed (f g : Filters) : Prop :=
  brand f <> brand g \/ city f <> city g \/
  condition f <> condition g \/ sortBy f <> sortBy g.

(** The value of the field [k] in [{...a, ...b}] when [a] holds [v]. *)
Definition overlay (b : Js.obj) (kv : string * string) : string * string :=
  (fst kv, match Js.get (fst kv) b with Some v' => v' | None => snd kv end).

(** The entries of [b] whose key [a] lacks. *)
Definition fresh_entries (a b : Js.obj) : Js.obj :=
  filter (fun kv => negb (Js.has (fst kv) a)) b.

(** The pair one entry contributes to the query. *)
Definition entry_params (kv : string * string) : list (string * string) :=
  if Js.truthy (snd kv) && negb (fst kv =? "search")
  then [(param_name (fst kv), snd kv)]
  else [].

(** The names of the fields of [Filters]. *)
Definition filter_keys : list string :=
  ["brand"; "city"; "condition"; "search"; "minPrice"; "maxPrice"; "sortBy"].

(** [k] names a field of [Filters]. *)
Definition is_filter_key (k : string) : bool :=
  existsb (String.eqb k) filter_keys.

(** The value of the field [key] that the request is built from: the
    override's when the override has the key, the stored one otherwise. *)
Definition effective (override : Js.obj) (key stored : string) : string :=
  match Js.get key override with
  | Some v => v
  | None => stored
  end.

(** A parameter that is sent only when its value is not empty. *)
Definition param_if_nonempty (name value : string) : list (string * string) :=
  if Js.truthy value then [(name, value)] else [].

(** The non-empty entries of the override that are no field of [Filters]. *)
Definition other_params (override : Js.obj) : list (string * string) :=
  flat_map (fun kv => param_if_nonempty (fst kv) (snd kv))
           (filter (fun kv => negb (is_filter_key (fst kv))) override).

(** The request as the amended contract describes it. *)
Definition request_spec (f : Filters) (override : Js.obj) (pageNum : nat)
  : list (string * string) :=
  param_if_nonempty "brand" (effective override "brand" (brand f)) ++
  param_if_nonempty "city" (effective override "city" (city f)) ++
  param_if_nonempty "condition" (effective override "condition" (condition f)) ++
  param_if_nonempty "min_price" (effective override "minPrice" (minPrice f)) ++
  param_if_nonempty "max_price" (effective override "maxPrice" (maxPrice f)) ++
  param_if_nonempty "sort_by" (effective override "sortBy" (sortBy f)) ++
  other_params override ++
  param_if_nonempty "search"
    (Js.or_undef (Js.get "search" override) (search f)) ++
  [("page", Js.of_nat pageNum); ("limit", "20")].

(** The request as the contract words it: the stored filter fields, the
    search text of the override or of the stored filters, the page and the
    limit. *)
Definition request_as_worded (f : Filters) (override : Js.obj) (pageNum : nat)
  : list (string * string) :=
  param_if_nonempty "brand" (brand f) ++
  param_if_nonempty "city" (city f) ++
  param_if_nonempty "condition" (condition f) ++
  param_if_nonempty "sort_by" (sortBy f) ++
  param_if_nonempty "min_price" (minPrice f) ++
  param_if_nonempty "max_price" (maxPrice f) ++
  param_if_nonempty "search"
    (Js.or_undef (Js.get "search" override) (search f)) ++
  [("page", Js.of_nat pageNum); ("limit", "20")].

(** [model] contains [value] when case is ignored. *)
Definition contains_ci (model value : string) : Prop :=
  exists pre post : string,
    Js.toLowerCase model
    = String.append pre (String.append (Js.toLowerCase value) post).

(** [ms] is the list of the entries of [catalog] that contain [value], in
    the order of [catalog]. *)
Inductive matches_of (value : string) : list string -> list string -> Prop :=
| matches_nil : matches_of value [] []
| matches_keep (m : string) (catalog ms : list string) :
    contains_ci m value -> matches_of value catalog ms ->
    matches_of value (m :: catalog) (m :: ms)
| matches_skip (m : string) (catalog ms : list string) :
    ~ contains_ci m value -> matches_of value catalog ms ->
    matches_of value (m :: catalog) ms.

(** [w'] is [w] with the error toast [message] raised and nothing else
    changed: in particular no call was sent. *)
Definition only_toast (message : string) (w w' : World) : Prop :=
  w' = schedule 3000 (upd_st (setToast (Some (Toast.mk message "error"))) w) /\
  toast (st w') = Some (Toast.mk message "error") /\
  net w' = net w /\
  localStorage w' = localStorage w /\
  authorization w' = authorization w.

(** The text of the toast after a failed call: the server's [detail] when
    it has one that is not empty, the fallback otherwise. *)
Definition error_text (error : AxiosError) (fallback : string) : string :=
  match detail error with
  | Some d => if Js.truthy d then d else fallback
  | None => fallback
  end.

(* --------------------------------------------------------------------- *)
(** *** Sample data and backends *)

(** A sample listing and pages made of it. *)
Definition sampleListing : Listing.t :=
  Listing.mk 1 "iPhone 15 Pro Max 256GB" "Apple" "Like New" 285000%N true
             "Karachi" [] "2 days ago".

(** A page of [n] listings. *)
Definition pageOf (n : nat) : list Listing.t := repeat sampleListing n.

(** A user as the backend returns it. *)
Definition sampleUser : User.t :=
  User.mk 7 "Ayesha" "ayesha@example.com" "" "individual".

(** The body of a login by e-mail. *)
Definition sampleLogin : LoginData :=
  mkLoginData (Some "ayesha@example.com") None "secret" "email".

(** The application right after its first render, with no stored token. *)
Definition world0 : World :=
  mkWorld (initialState None) [] None [] [].

(** A backend that rejects every call. *)
Definition rejecting : Server := fun _ _ => inr (mkError None).

(** A backend that answers every listings call with [data] and rejects the
    other calls. *)
Definition serving (data : list Listing.t) : Server :=
  fun _ c =>
    match c return resp c + AxiosError with
    | GET_listings _ => inl data
    | _ => inr (mkError None)
    end.

(** A backend that rejects every call with the message [d]. *)
Definition refusing (d : string) : Server :=
  fun _ _ => inr (mkError (Some d)).

(** The results screen on page 3, 60 listings loaded. *)
Definition world_page3 : World :=
  upd_st (fun s => setPage 3 (setListings (pageOf 60) s)) world0.

(** The filters after the brand Apple was picked. *)
Definition appleFilters : Filters :=
  mkFilters "Apple" "" "" "" "" "" "recent".

(** A backend that accepts every call. *)
Definition accepting : Server :=
  fun _ c =>
    match c return resp c + AxiosError with
    | GET_auth_me => inl sampleUser
    | GET_listings _ => inl []
    | POST_auth_login _ => inl (mkAuthResponse "tok" sampleUser)
    | GET_favorites => inl []
    | DELETE_favorites _ => inl tt
    | POST_favorites _ => inl tt
    | POST_messages _ => inl tt
    | GET_conversation_messages _ => inl []
    | GET_conversations => inl []
    | POST_reviews _ => inl tt
    | GET_user_reviews _ => inl []
    end.

(** A backend that accepts the login and rejects every other call. *)
Definition login_only : Server :=
  fun _ c =>
    match c return resp c + AxiosError with
    | POST_auth_login _ => inl (mkAuthResponse "tok" sampleUser)
    | _ => inr (mkError None)
    end.

(* ===================================================================== *)
(** ** More of the component: handlers, views and page helpers *)
(* ===================================================================== *)

(** More of the JavaScript string library.  White space is the ASCII white
    space: tab, line feed, vertical tab, form feed, carriage return and
    space. *)
Module Str.

Definition is_space (c : ascii) : bool :=
  let n := nat_of_ascii c in
  (Nat.leb 9 n && Nat.leb n 13) || Nat.eqb n 32.

(** [s.trimStart()] *)
Fixpoint trimStart (s : string) : string :=
  match s with
  | EmptyString => EmptyString
  | String c s' => if is_space c then trimStart s' else s
  end.

(** [s.trimEnd()] *)
Fixpoint trimEnd (s : string) : string :=
  match s with
  | EmptyString => EmptyString
  | String c s' =>
      let t := trimEnd s' in
      if is_space c && negb (Js.truthy t) then EmptyString else String c t
  end.

(** [s.trim()] *)
Definition trim (s : string) : string := trimEnd (trimStart s).

(** Every character of [s] is white space. *)
Fixpoint blank (s : string) : bool :=
  match s with
  | EmptyString => true
  | String c s' => is_space c && blank s'
  end.

End Str.

(** [setSelectedConversation] *)
Definition setSelectedConversation (v : option Conversation.t) (s : State) : State :=
  mkState (currentPage s) (user s) (token s) (listings s) (filters s)
    (searchHistory s) (favorites s) (conversations s) (messages s) v
    (reviews s) (toast s) (loading s) (page s) (hasMoreListings s)
    (searchSuggestions s) (showSuggestions s) (searchQuery s).

(** A handler followed by the render it causes: React then runs the listings
    effect against the filters of the render the handler ran in. *)
Definition then_render (h : State -> Prog unit) (c : State) : Prog unit :=
  h c ;; effect_filters (filters c).

(** [handleLogout] (lines 280-290).  [wsRef.current] is assigned nowhere
    but in this function, so it is [null] and the socket branch is dead. *)
Definition handleLogout (c : State) : Prog unit :=
  setState (setToken None) ;;
  setState (setUser None) ;;
  effect (upd_localStorage (Js.remove "token")) ;;
  setState (setCurrentPage "home") ;;
  showToast "Logged out successfully" "info".

(** [performSearch] (lines 143-154 of the variant with suggestions), called
    with the query [query]. *)
Definition performSearch (query : string) (c : State) : Prog unit :=
  if negb (Js.truthy (Str.trim query)) then Ret tt
  else
    (if negb (existsb (String.eqb query) (searchHistory c))
     then setState (setSearchHistory (query :: firstn 9 (searchHistory c)))
     else Ret tt) ;;
    setState (setCurrentPage "searchResults") ;;
    setState (setShowSuggestions false) ;;
    Fork (loadListings c [("search", query)] 1 false) (Ret tt).

(** [selectSuggestion] (lines 135-140 of the variant with suggestions) *)
Definition selectSuggestion (suggestion : string) (c : State) : Prog unit :=
  setState (setSearchQuery suggestion) ;;
  setState (setFilters (with_search suggestion (filters c))) ;;
  setState (setShowSuggestions false) ;;
  performSearch suggestion c.

(** [{...filters, brand}] *)
Definition with_brand (value : string) (f : Filters) : Filters :=
  mkFilters value (city f) (condition f) (search f) (minPrice f) (maxPrice f)
            (sortBy f).

(** [{...filters, condition: value}] *)
Definition with_condition (value : string) (f : Filters) : Filters :=
  mkFilters (brand f) (city f) value (search f) (minPrice f) (maxPrice f)
            (sortBy f).

(** The click on a brand card of the categories page (lines 1142-1146). *)
Definition pickBrand (value : string) (c : State) : Prog unit :=
  setState (setFilters (with_brand value (filters c))) ;;
  Fork (loadListings c [("brand", value)] 1 false)
       (setState (setCurrentPage "searchResults")).

(** The click on the cards "New Phones" and "Like New" of the categories
    page (lines 1160-1164 and 1173-1177), with [value] the condition. *)
Definition pickCondition (value : string) (c : State) : Prog unit :=
  setState (setFilters (with_condition value (filters c))) ;;
  Fork (loadListings c [("condition", value)] 1 false)
       (setState (setCurrentPage "searchResults")).

(** The button "Clear Filters" of the results page (lines 1290-1296). *)
Definition clearFilters (c : State) : Prog unit :=
  setState (setFilters initialFilters) ;;
  Fork (loadListings c [] 1 false) (Ret tt).

(** The value of one field of [{...prev, ...q}]. *)
Definition merged_field (q : Js.obj) (key stored : string) : string :=
  match Js.get key q with
  | Some v => v
  | None => stored
  end.

(** [{...prev, ...q}] as filters, for an object [q] whose keys are fields
    of [Filters]. *)
Definition merge_filters (prev : Filters) (q : Js.obj) : Filters :=
  mkFilters (merged_field q "brand" (brand prev))
            (merged_field q "city" (city prev))
            (merged_field q "condition" (condition prev))
            (merged_field q "search" (search prev))
            (merged_field q "minPrice" (minPrice prev))
            (merged_field q "maxPrice" (maxPrice prev))
            (merged_field q "sortBy" (sortBy prev)).

(** A saved search: [search_query] is the object that was saved. *)
Record SavedSearch : Type := mkSavedSearch {
  saved_name : string;
  search_query : Js.obj
}.

(** [applySavedSearch] (lines 308-312) *)
Definition applySavedSearch (savedSearch : SavedSearch) (c : State) : Prog unit :=
  setState (fun s => setFilters (merge_filters (filters s) (search_query savedSearch)) s) ;;
  Fork (loadListings c (search_query savedSearch) 1 false)
       (setState (setCurrentPage "searchResults")).

(** The click on a conversation of the messages page (lines 1451-1455). *)
Definition openConversation (conversation : Conversation.t) (c : State) : Prog unit :=
  setState (setSelectedConversation (Some conversation)) ;;
  setState (setCurrentPage "chat") ;;
  Fork (loadMessages c (Conversation.id conversation)) (Ret tt).

(** The screens of the router. *)
Inductive Screen : Type :=
| AuthSelectionPage
| LoginPage
| RegistrationForm
| CategoriesPage
| SearchPage
| SearchResultsPage
| ProfilePage
| MessagesPage
| HomePage.

(** [renderCurrentPage] of frontend/src/App.js (lines 1520-1532). *)
Definition renderCurrentPage (currentPage : string) : Screen :=
  if currentPage =? "authSelection" then AuthSelectionPage
  else if currentPage =? "login" then LoginPage
  else if currentPage =? "register" then RegistrationForm
  else HomePage.

(** [renderCurrentPage] of the variant with suggestions (lines 2145-2166). *)
Definition renderCurrentPage_variant (currentPage : string) : Screen :=
  if currentPage =? "authSelection" then AuthSelectionPage
  else if currentPage =? "login" then LoginPage
  else if currentPage =? "register" then RegistrationForm
  else if currentPage =? "categories" then CategoriesPage
  else if currentPage =? "search" then SearchPage
  else if currentPage =? "searchResults" then SearchResultsPage
  else if currentPage =? "profile" then ProfilePage
  else if currentPage =? "messages" then MessagesPage
  else HomePage.

(** [samplePhones] of the variant with suggestions (lines 28-95). *)
Definition samplePhones : list Listing.t :=
  [ Listing.mk 1 "iPhone 15 Pro Max 256GB" "Apple" "Like New" 285000%N true
      "Karachi"
      ["https://images.unsplash.com/photo-1592899677977-9c10ca588bbd?w=400"]
      "2 days ago";
    Listing.mk 2 "Samsung Galaxy S24 Ultra 512GB" "Samsung" "Excellent"
      245000%N false "Lahore"
      ["https://images.unsplash.com/photo-1610945265064-0e34e5519bbf?w=400"]
      "1 day ago";
    Listing.mk 3 "Google Pixel 8 Pro 128GB" "Google" "New" 165000%N true
      "Islamabad"
      ["https://images.unsplash.com/photo-1511707171634-5f897ff02aa9?w=400"]
      "3 hours ago";
    Listing.mk 4 "OnePlus 12 256GB Flowy Emerald" "OnePlus" "Like New"
      135000%N true "Faisalabad"
      ["https://images.unsplash.com/photo-1574944985070-8f3ebc6b79d2?w=400"]
      "5 days ago";
    Listing.mk 5 "Xiaomi 14 Pro 512GB Black" "Xiaomi" "Excellent" 95000%N false
      "Multan"
      ["https://images.unsplash.com/photo-1567721913486-6585f069b332?w=400"]
      "1 week ago";
    Listing.mk 6 "Nothing Phone (2) 256GB White" "Nothing" "New" 89000%N true
      "Peshawar"
      ["https://images.unsplash.com/photo-1598300042247-d088f8ab3a91?w=400"]
      "4 days ago" ].

(** The local state of the results page of the variant (lines 1676-1681). *)
Record PanelState : Type := mkPanel {
  panel_sortBy : string;
  priceRange : N * N;
  selectedConditions : list string;
  selectedBrands : list string;
  selectedCities : list string
}.

Definition initialPanel : PanelState :=
  mkPanel "recent" (0%N, 500000%N) [] [] [].

(** [filteredListings] of the results page of the variant (line 1683): the
    selections of the panel are not read. *)
Definition filteredListings (s : State) : list Listing.t :=
  if (0 <? length (listings s))%nat then listings s else samplePhones.

(** [prev.includes(value) ? prev.filter(c => c !== value) : [...prev, value]] *)
Definition toggle (value : string) (prev : list string) : list string :=
  if existsb (String.eqb value) prev
  then filter (fun c => negb (c =? value)) prev
  else prev ++ [value].

(** [handleFilterChange] of the results page of the variant (lines
    1686-1712). *)
Definition handleFilterChange (filterType value : string) (p : PanelState)
  : PanelState :=
  if filterType =? "condition"
  then mkPanel (panel_sortBy p) (priceRange p)
               (toggle value (selectedConditions p)) (selectedBrands p)
               (selectedCities p)
  else if filterType =? "brand"
  then mkPanel (panel_sortBy p) (priceRange p) (selectedConditions p)
               (toggle value (selectedBrands p)) (selectedCities p)
  else if filterType =? "city"
  then mkPanel (panel_sortBy p) (priceRange p) (selectedConditions p)
               (selectedBrands p) (toggle value (selectedCities p))
  else p.

(** [clearAllFilters] of the results page of the variant (lines 1714-1720). *)
Definition clearAllFilters (p : PanelState) : PanelState := initialPanel.

(** The shop page (frontend/src/components/ShopPage.js). *)
Module Shop.

(** A phone of [shop.phones]: the fields the list logic reads.  [listedDate]
    is the time value of [new Date(phone.listedDate)], in milliseconds. *)
Record phone : Type := mkPhone {
  id : nat;
  model : string;
  brand : string;
  price : Z;
  listedDate : Z
}.

(** The comparator given to [sort] (lines 23-36). *)
Definition compare (sortBy : string) (a b : phone) : Z :=
  if sortBy =? "price-low" then (price a - price b)%Z
  else if sortBy =? "price-high" then (price b - price a)%Z
  else if sortBy =? "newest" then (listedDate b - listedDate a)%Z
  else if sortBy =? "oldest" then (listedDate a - listedDate b)%Z
  else 0%Z.

(** [Array.prototype.sort] is stable: [x], which stood before the elements
    of [l], goes before the first element it does not follow. *)
Fixpoint insert (cmp : phone -> phone -> Z) (x : phone) (l : list phone)
  : list phone :=
  match l with
  | [] => [x]
  | y :: l' => if (cmp x y <=? 0)%Z then x :: l else y :: insert cmp x l'
  end.

Fixpoint sort (cmp : phone -> phone -> Z) (l : list phone) : list phone :=
  match l with
  | [] => []
  | x :: l' => insert cmp x (sort cmp l')
  end.

(** The test of the [filter] (line 22). *)
Definition in_category (selectedCategory : string) (p : phone) : bool :=
  (selectedCategory =? "all") || (Js.toLowerCase (brand p) =? selectedCategory).

(** [filteredPhones] (lines 21-36) *)
Definition filteredPhones (phones : list phone) (selectedCategory sortBy : string)
  : list phone :=
  sort (compare sortBy) (filter (in_category selectedCategory) phones).



(** The phones are in the order of [cmp]. *)
Definition ordered (cmp : phone -> phone -> Z) (l : list phone) : Prop :=
  StronglySorted (fun a b => (cmp a b <= 0)%Z) l.

End Shop.

(** The parameters that the stored filter fields other than [search]
    contribute to a request, in the order of [Object.entries]. *)
Definition stored_params (f : Filters) : list (string * string) :=
  param_if_nonempty "brand" (brand f) ++
  param_if_nonempty "city" (city f) ++
  param_if_nonempty "condition" (condition f) ++
  param_if_nonempty "min_price" (minPrice f) ++
  param_if_nonempty "max_price" (maxPrice f) ++
  param_if_nonempty "sort_by" (sortBy f).

(** The two parameters every request ends with. *)
Definition paging_params (pageNum : nat) : list (string * string) :=
  [("page", Js.of_nat pageNum); ("limit", "20")].


(** The reloads that follow a message that was sent. *)
Definition reloads_after_message (s : State) : list Call :=
  match selectedConversation s with
  | Some conv => [GET_conversation_messages (Conversation.id conv); GET_conversations]
  | None => [GET_conversations]
  end.

(** A backend whose first answer is a rejection and whose later answers to
    listings calls are [data]. *)
Definition failing_once (data : list Listing.t) : Server :=
  fun n c =>
    match n with
    | O => inr (mkError None)
    | S _ => serving data n c
    end.

(** A conversation about the sample listing. *)
Definition sampleConversation : Conversation.t :=
  Conversation.mk 11 sampleUser sampleListing "Still available?" 2.

(** The application with the sample user signed in. *)
Definition world_signed_in : World :=
  upd_st (setUser (Some sampleUser)) world0.

(** The selection of the filter panel that [filterType] names. *)
Definition selection (filterType : string) (p : PanelState) : list string :=
  if filterType =? "condition" then selectedConditions p
  else if filterType =? "brand" then selectedBrands p
  else if filterType =? "city" then selectedCities p
  else [].




(** A reload of the page: the component is mounted again, its state is the
    initial one with [token] read from [localStorage] (line 11), and the
    axios defaults are those of a fresh script. *)
Definition reload (w : World) : World :=
  mkWorld (initialState (Js.get "token" (localStorage w))) (localStorage w)
          None (net w) [].

(* ===================================================================== *)
(** ** Facts about objects and strings *)
(* ===================================================================== *)

Lemma get_none_not_in (k : string) (o : Js.obj) :
  Js.get k o = None <-> ~ In k (Js.keys o).
Proof.
  induction o as [|[k' v] o IH]; cbn.
  - tauto.
  - destruct (String.eqb_spec k' k) as [->|Hne].
    + split; [discriminate|]. intros H. exfalso. apply H. now left.
    + rewrite IH. split; [intros H [E|I]; [congruence|auto] | intros H I; apply H; now right].
Qed.

Lemma keys_set_in (k v : string) (o : Js.obj) :
  In k (Js.keys o) -> Js.keys (Js.set k v o) = Js.keys o.
Proof.
  induction o as [|[k' v'] o IH]; cbn; [tauto|].
  intros H. destruct (String.eqb_spec k' k) as [->|Hne]; [reflexivity|].
  cbn. f_equal. apply IH. destruct H; [congruence|assumption].
Qed.

Lemma set_not_in (k v : string) (o : Js.obj) :
  ~ In k (Js.keys o) -> Js.set k v o = o ++ [(k, v)].
Proof.
  induction o as [|[k' v'] o IH]; cbn; [reflexivity|].
  intros H. destruct (String.eqb_spec k' k) as [->|Hne].
  - exfalso. apply H. now left.
  - f_equal. apply IH. intros I. apply H. now right.
Qed.

Lemma get_set_same (k v : string) (o : Js.obj) :
  Js.get k (Js.set k v o) = Some v.
Proof.
  induction o as [|[k' v'] o IH]; cbn.
  - now rewrite String.eqb_refl.
  - destruct (String.eqb_spec k' k) as [->|Hne]; cbn.
    + now rewrite String.eqb_refl.
    + destruct (String.eqb_spec k' k); [contradiction|exact IH].
Qed.

Lemma get_remove_same (k : string) (o : Js.obj) :
  Js.distinct_keys o -> Js.get k (Js.remove k o) = None.
Proof.
  unfold Js.distinct_keys. induction o as [|[k' v'] o IH]; cbn; [reflexivity|].
  intros H. inversion H as [|? ? Hn Hd]; subst.
  destruct (String.eqb_spec k' k) as [->|Hne].
  - now apply get_none_not_in.
  - cbn. destruct (String.eqb_spec k' k); [contradiction|auto].
Qed.

Lemma NoDup_snoc (k : string) (l : list string) :
  NoDup l -> ~ In k l -> NoDup (l ++ [k]).
Proof.
  induction l as [|x l IH]; cbn; intros Hd Hn.
  - constructor; [tauto|constructor].
  - inversion Hd as [|? ? Hx Hl]; subst. constructor.
    + rewrite in_app_iff. cbn. intros [I|[E|[]]]; [contradiction|].
      apply Hn. now left.
    + apply IH; [assumption|]. intros I. apply Hn. now right.
Qed.

Lemma map_overlay_set (k v : string) (a b : Js.obj) :
  Js.distinct_keys a -> In k (Js.keys a) -> ~ In k (Js.keys b) ->
  map (overlay b) (Js.set k v a) = map (overlay ((k, v) :: b)) a.
Proof.
  unfold Js.distinct_keys. intros Hwf Hin Hb. revert Hwf Hin.
  induction a as [|[k' v'] a IH]; cbn; intros Hwf Hin; [destruct Hin|].
  inversion Hwf as [|? ? Hn Hd]; subst.
  destruct (String.eqb_spec k' k) as [->|Hne].
  - cbn. unfold overlay at 1 3. cbn. rewrite String.eqb_refl.
    apply get_none_not_in in Hb. rewrite Hb. f_equal.
    apply map_ext_in. intros [k1 v1] H1. unfold overlay. cbn.
    destruct (String.eqb_spec k k1) as [->|]; [|reflexivity].
    exfalso. apply Hn. apply (in_map fst) in H1. exact H1.
  - cbn. unfold overlay at 1 3. cbn.
    destruct (String.eqb_spec k k') as [E|_]; [congruence|]. f_equal.
    apply IH; [assumption|]. destruct Hin; [congruence|assumption].
Qed.

Lemma map_overlay_fresh (k v : string) (a b : Js.obj) :
  ~ In k (Js.keys a) -> map (overlay ((k, v) :: b)) a = map (overlay b) a.
Proof.
  intros Hn. apply map_ext_in. intros [k1 v1] H1. unfold overlay. cbn.
  destruct (String.eqb_spec k k1) as [->|]; [|reflexivity].
  exfalso. apply Hn. apply (in_map fst) in H1. exact H1.
Qed.

Lemma has_keys (k : string) (a : Js.obj) :
  Js.has k a = true <-> In k (Js.keys a).
Proof.
  unfold Js.has. destruct (Js.get k a) eqn:E.
  - split; [|reflexivity]. intros _.
    destruct (in_dec string_dec k (Js.keys a)) as [I|N]; [exact I|].
    apply get_none_not_in in N. congruence.
  - split; [discriminate|]. intros I. apply get_none_not_in in E. contradiction.
Qed.

Lemma fresh_entries_same_keys (a a' b : Js.obj) :
  Js.keys a = Js.keys a' -> fresh_entries a b = fresh_entries a' b.
Proof.
  intros E. unfold fresh_entries. apply filter_ext. intros [k v]. cbn. f_equal.
  apply eq_true_iff_eq. rewrite !has_keys, E. tauto.
Qed.

Lemma fresh_entries_app (a b : Js.obj) (k v : string) :
  ~ In k (Js.keys b) -> fresh_entries (a ++ [(k, v)]) b = fresh_entries a b.
Proof.
  intros Hb. unfold fresh_entries. apply filter_ext_in. intros [k1 v1] H1. cbn.
  f_equal. apply eq_true_iff_eq. rewrite !has_keys. unfold Js.keys.
  rewrite map_app, in_app_iff. cbn. split; [|tauto].
  intros [I|[E|[]]]; [exact I|]. subst. exfalso. apply Hb.
  apply (in_map fst) in H1. exact H1.
Qed.

(** [{...a, ...b}] keeps the keys of [a] in place, with the values of [b]
    where [b] has the key, and appends the other entries of [b]. *)
Lemma spread_overlay (b a : Js.obj) :
  Js.distinct_keys a -> Js.distinct_keys b ->
  Js.spread a b = map (overlay b) a ++ fresh_entries a b.
Proof.
  unfold Js.spread. revert a.
  induction b as [|[k v] b IH]; intros a Ha Hb; cbn [fold_left fst snd].
  - unfold fresh_entries. cbn. rewrite app_nil_r. symmetry.
    rewrite <- (map_id a) at 2. apply map_ext. intros [k v]. reflexivity.
  - unfold Js.distinct_keys in Hb. cbn in Hb. inversion Hb as [|? ? Hn Hd]; subst.
    destruct (in_dec string_dec k (Js.keys a)) as [I|N].
    + rewrite IH; [|unfold Js.distinct_keys; rewrite keys_set_in; assumption|exact Hd].
      rewrite (map_overlay_set k v a b Ha I Hn).
      rewrite (fresh_entries_same_keys _ a b (keys_set_in k v a I)).
      f_equal. unfold fresh_entries. cbn.
      apply has_keys in I. rewrite I. reflexivity.
    + rewrite (set_not_in k v a N).
      rewrite IH; [| |exact Hd].
      * rewrite map_app, <- app_assoc. cbn [map app].
        rewrite (map_overlay_fresh k v a b N), (fresh_entries_app a b k v Hn).
        f_equal. unfold overlay at 1. cbn.
        apply get_none_not_in in Hn. rewrite Hn.
        unfold fresh_entries. cbn.
        destruct (Js.has k a) eqn:E; [apply has_keys in E; contradiction|].
        reflexivity.
      * unfold Js.distinct_keys, Js.keys. rewrite map_app. cbn.
        apply NoDup_snoc; assumption.
Qed.



(* ===================================================================== *)
(** ** The request built by [loadListings] *)
(* ===================================================================== *)

Example listing_params_initial :
  listing_params initialFilters [] 1 =
  [("sort_by", "recent"); ("page", "1"); ("limit", "20")].
Proof. reflexivity. Qed.

Example listing_params_price :
  listing_params (mkFilters "Apple" "" "New" "pro" "100" "900" "price_low")
                 [("search", "max")] 12 =
  [("brand", "Apple"); ("condition", "New"); ("min_price", "100");
   ("max_price", "900"); ("sort_by", "price_low"); ("search", "max");
   ("page", "12"); ("limit", "20")].
Proof. reflexivity. Qed.

Lemma fold_append_entry (l : Js.obj) (acc : list (string * string)) :
  fold_left append_entry l acc = acc ++ flat_map entry_params l.
Proof.
  revert acc. induction l as [|[k v] l IH]; intros acc; cbn [fold_left flat_map].
  - now rewrite app_nil_r.
  - rewrite IH. unfold append_entry, entry_params. cbn [fst snd].
    destruct (Js.truthy v && negb (k =? "search")).
    + now rewrite <- app_assoc.
    + reflexivity.
Qed.

Lemma has_entries (f : Filters) (k : string) :
  Js.has k (entries f) = is_filter_key k.
Proof.
  unfold Js.has, is_filter_key, entries, filter_keys. cbn [Js.get existsb].
  rewrite !(String.eqb_sym k).
  repeat match goal with
         | |- context [String.eqb ?a k] => destruct (String.eqb a k)
         end; reflexivity.
Qed.

Lemma entries_distinct (f : Filters) : Js.distinct_keys (entries f).
Proof.
  unfold Js.distinct_keys, entries. cbn.
  repeat (constructor; [cbn; intuition discriminate|]). constructor.
Qed.

Lemma entry_params_other (k v : string) :
  is_filter_key k = false -> entry_params (k, v) = param_if_nonempty k v.
Proof.
  unfold is_filter_key, filter_keys, entry_params, param_if_nonempty, param_name.
  cbn [existsb fst snd]. intros H.
  repeat (apply orb_false_iff in H; destruct H as [?H H]).
  repeat match goal with
         | E : String.eqb _ _ = false |- _ => rewrite E; clear E
         end.
  cbn [negb orb]. now rewrite andb_true_r.
Qed.

Lemma entry_params_field (k v : string) :
  is_filter_key k = true -> k <> "search" ->
  entry_params (k, v) = param_if_nonempty (param_name k) v.
Proof.
  intros _ Hs. unfold entry_params, param_if_nonempty. cbn [fst snd].
  apply String.eqb_neq in Hs. rewrite Hs. cbn [negb]. now rewrite andb_true_r.
Qed.

(** C3 (amended).  For every filter state, every override object and every
    page number, the request of [loadListings] is, in this order: each of
    [brand], [city], [condition], [minPrice] (sent as [min_price]),
    [maxPrice] (sent as [max_price]) and [sortBy] (sent as [sort_by]) whose
    value, read from the override when the override has the field and from
    the stored filters otherwise, is not empty; the non-empty entries of the
    override that are no filter field, under their own names; [search], the
    override's search text when it is not empty and the stored one otherwise,
    left out when both are empty; [page], the requested page; [limit], 20. *)
Theorem listing_params_contract :
  forall f override pageNum,
    Js.wf override ->
    listing_params f override pageNum = request_spec f override pageNum.
Proof.
  intros f o n [Ho _]. unfold listing_params, request_spec.
  rewrite fold_append_entry,
    (spread_overlay o (entries f) (entries_distinct f) Ho).
  rewrite flat_map_app. cbn [app].
  assert (Hother : flat_map entry_params (fresh_entries (entries f) o)
                   = other_params o).
  { unfold fresh_entries, other_params.
    rewrite (filter_ext _ (fun kv => negb (is_filter_key (fst kv))))
      by (intros kv; now rewrite has_entries).
    induction o as [|[k v] o IH]; cbn [filter fst]; [reflexivity|].
    assert (Ho' : Js.distinct_keys o)
      by (unfold Js.distinct_keys in *; cbn in Ho; now inversion Ho).
    destruct (is_filter_key k) eqn:Hk; cbn [negb]; [now apply IH|].
    cbn [flat_map fst snd]. rewrite (entry_params_other k v Hk).
    f_equal. now apply IH. }
  rewrite Hother. unfold entries. cbn [map flat_map]. unfold overlay.
  cbn [fst snd]. fold (effective o "brand" (brand f)).
  fold (effective o "city" (city f)).
  fold (effective o "condition" (condition f)).
  fold (effective o "minPrice" (minPrice f)).
  fold (effective o "maxPrice" (maxPrice f)).
  fold (effective o "sortBy" (sortBy f)).
  replace (entry_params ("search", _)) with (@nil (string * string))
    by (unfold entry_params; cbn [fst snd]; rewrite String.eqb_refl;
        cbn [negb]; now rewrite andb_false_r).
  rewrite !entry_params_field by (try reflexivity; discriminate).
  change (param_name "brand") with "brand".
  change (param_name "city") with "city".
  change (param_name "condition") with "condition".
  change (param_name "minPrice") with "min_price".
  change (param_name "maxPrice") with "max_price".
  change (param_name "sortBy") with "sort_by".
  set (s := Js.or_undef (Js.get "search" o) (search f)).
  assert (Hs : param_if_nonempty "search" s
               = if Js.truthy s then [("search", s)] else [])
    by reflexivity.
  rewrite Hs. destruct (Js.truthy s);
    cbn [app]; rewrite ?app_nil_r, <- ?app_assoc; reflexivity.
Qed.

Lemma listing_params_contract_witness :
  listing_params (mkFilters "Apple" "" "" "pro" "" "900" "recent")
                 [("condition", "New"); ("search", "max"); ("storage", "256GB")]
                 2
  = [("brand", "Apple"); ("condition", "New"); ("max_price", "900");
     ("sort_by", "recent"); ("storage", "256GB"); ("search", "max");
     ("page", "2"); ("limit", "20")].
Proof.
  rewrite listing_params_contract.
  - reflexivity.
  - split.
    + unfold Js.distinct_keys. cbn.
      repeat (constructor; [cbn; intuition discriminate|]). constructor.
    + repeat constructor.
Defined.

(** C3 as stated fails: with an override that names a brand, the request
    carries that brand although the stored [brand] is empty, so the request
    is not the one made of the stored fields. *)
Lemma override_brand_is_sent :
  In ("brand", "Apple") (listing_params initialFilters [("brand", "Apple")] 1) /\
  ~ In ("brand", "Apple") (request_as_worded initialFilters [("brand", "Apple")] 1).
Proof.
  split.
  - cbn. now left.
  - cbn. intros [H|[H|[H|[]]]]; discriminate.
Qed.

(* ===================================================================== *)
(** ** Running [loadListings] *)
(* ===================================================================== *)

Lemma loadListings_sends (c : State) (searchFilters : Js.obj) (pageNum : nat)
  (append : bool) (srv : Server) (w : World) :
  net (after_loadListings c searchFilters pageNum append srv w) =
  net w ++ [listings_request c searchFilters pageNum].
Proof.
  unfold after_loadListings, loadListings, listings_request. cbn.
  destruct (srv _ _); cbn; destruct append; reflexivity.
Qed.

(** The world a successful fetch leaves. *)
Lemma loadListings_success (c : State) (searchFilters : Js.obj) (pageNum : nat)
  (append : bool) (srv : Server) (w : World) (data : list Listing.t) :
  srv (length (net w)) (listings_request c searchFilters pageNum) = inl data ->
  run (loadListings c searchFilters pageNum append) srv w =
  (sent (listings_request c searchFilters pageNum)
     (upd_st (fun s =>
        setLoading false
          (setPage pageNum
             (setHasMoreListings (length data =? 20)%nat
                (setListings (if append then listings s ++ data else data)
                   (setLoading true s))))) w),
   inl tt).
Proof.
  unfold loadListings, listings_request. intros H. cbn. rewrite H. cbn.
  destruct append; reflexivity.
Qed.

(** The world a failed fetch leaves. *)
Lemma loadListings_failure (c : State) (searchFilters : Js.obj) (pageNum : nat)
  (append : bool) (srv : Server) (w : World) (e : AxiosError) :
  srv (length (net w)) (listings_request c searchFilters pageNum) = inr e ->
  run (loadListings c searchFilters pageNum append) srv w =
  (schedule 3000
     (sent (listings_request c searchFilters pageNum)
        (upd_st (fun s =>
           setLoading false
             (setListings []
                (setToast (Some (Toast.mk "Error loading listings" "error"))
                   (setLoading true s)))) w)),
   inl tt).
Proof.
  unfold loadListings, listings_request. intros H. cbn. rewrite H. reflexivity.
Qed.

(** Case analysis on the answer to the call of [loadListings]. *)
Ltac on_answer c sf n app srv w :=
  unfold after_loadListings;
  let data := fresh "data" in
  let e := fresh "e" in
  let H := fresh "Hanswer" in
  destruct (srv (length (net w)) (listings_request c sf n)) as [data|e] eqn:H;
  [ rewrite (loadListings_success c sf n app srv w data H)
  | rewrite (loadListings_failure c sf n app srv w e H) ].

(** C2.  After a successful listings fetch, [hasMoreListings] is true exactly
    when the response held 20 items: it is false for 19 items or fewer and
    for 21 items, and a 21-item response is handled on the success path (no
    exception, no toast, all 21 items stored). *)
Theorem hasMoreListings_iff_full_page :
  forall c searchFilters pageNum append srv w data,
    srv (length (net w)) (listings_request c searchFilters pageNum) = inl data ->
    let w' := after_loadListings c searchFilters pageNum append srv w in
    (hasMoreListings (st w') = true <-> length data = 20) /\
    (length data <= 19 -> hasMoreListings (st w') = false) /\
    (length data = 21 ->
       hasMoreListings (st w') = false /\
       snd (run (loadListings c searchFilters pageNum append) srv w) = inl tt /\
       toast (st w') = toast (st w) /\
       listings (st w') = (if append then listings (st w) ++ data else data)).
Proof.
  intros c sf n app srv w data H w'. subst w'. unfold after_loadListings.
  rewrite (loadListings_success _ _ _ app _ _ _ H). cbn.
  split; [apply Nat.eqb_eq|].
  split.
  - intros Hle. apply Nat.eqb_neq. lia.
  - intros H21. rewrite H21. repeat split.
Qed.

Lemma hasMoreListings_iff_full_page_witness :
  hasMoreListings (st (after_loadListings (initialState None) [] 1 false
                         (serving (pageOf 20)) world0)) = true /\
  hasMoreListings (st (after_loadListings (initialState None) [] 1 false
                         (serving (pageOf 19)) world0)) = false /\
  hasMoreListings (st (after_loadListings (initialState None) [] 1 false
                         (serving (pageOf 21)) world0)) = false /\
  listings (st (after_loadListings (initialState None) [] 1 false
                  (serving (pageOf 21)) world0)) = pageOf 21.
Proof.
  pose proof (hasMoreListings_iff_full_page (initialState None) [] 1 false
                (serving (pageOf 20)) world0 (pageOf 20) eq_refl) as H20.
  pose proof (hasMoreListings_iff_full_page (initialState None) [] 1 false
                (serving (pageOf 19)) world0 (pageOf 19) eq_refl) as H19.
  pose proof (hasMoreListings_iff_full_page (initialState None) [] 1 false
                (serving (pageOf 21)) world0 (pageOf 21) eq_refl) as H21.
  cbv zeta in H20, H19, H21.
  destruct H20 as [H20 _]. destruct H19 as [_ [H19 _]]. destruct H21 as [_ [_ H21]].
  split; [apply H20; reflexivity|].
  split; [apply H19; cbn; lia|].
  destruct (H21 eq_refl) as [Ha [_ [_ Hb]]].
  split; [exact Ha | exact Hb].
Defined.

(** C5.  A failed listings fetch empties the result buffer and raises the
    error toast; whatever the outcome of the fetch (a page, an empty page or
    a failure) the loading flag is cleared at the end. *)
Theorem loadListings_failure_clears_and_loading_reset :
  forall c searchFilters pageNum append srv w,
    let w' := after_loadListings c searchFilters pageNum append srv w in
    loading (st w') = false /\
    (forall e,
        srv (length (net w)) (listings_request c searchFilters pageNum) = inr e ->
        listings (st w') = [] /\
        toast (st w') = Some (Toast.mk "Error loading listings" "error") /\
        timers w' = timers w ++ [3000]).
Proof.
  intros c sf n app srv w w'. subst w'. unfold after_loadListings. split.
  - on_answer c sf n app srv w; reflexivity.
  - intros e H. rewrite (loadListings_failure _ _ _ app _ _ _ H). cbn. auto.
Qed.

Lemma loadListings_failure_clears_and_loading_reset_witness :
  loading (st (after_loadListings (st world_page3) [] 4 true rejecting world_page3))
  = false /\
  listings (st (after_loadListings (st world_page3) [] 4 true rejecting world_page3))
  = [] /\
  toast (st (after_loadListings (st world_page3) [] 4 true rejecting world_page3))
  = Some (Toast.mk "Error loading listings" "error").
Proof.
  destruct (loadListings_failure_clears_and_loading_reset
              (st world_page3) [] 4 true rejecting world_page3) as [Hl Hf].
  destruct (Hf (mkError None) eq_refl) as [Hb [Ht _]].
  split; [exact Hl|]. split; [exact Hb | exact Ht].
Defined.

(** C10.  A failed listings fetch leaves [page] and [hasMoreListings] as they
    were, although the result buffer is emptied. *)
Theorem loadListings_failure_keeps_pagination :
  forall c searchFilters pageNum append srv w e,
    srv (length (net w)) (listings_request c searchFilters pageNum) = inr e ->
    let w' := after_loadListings c searchFilters pageNum append srv w in
    page (st w') = page (st w) /\
    hasMoreListings (st w') = hasMoreListings (st w) /\
    listings (st w') = [].
Proof.
  intros c sf n app srv w e H w'. subst w'. unfold after_loadListings.
  rewrite (loadListings_failure _ _ _ app _ _ _ H). cbn. auto.
Qed.

Lemma loadListings_failure_keeps_pagination_witness :
  page (st (after_loadListings (st world_page3) [] 4 true rejecting world_page3))
  = 3 /\
  hasMoreListings
    (st (after_loadListings (st world_page3) [] 4 true rejecting world_page3))
  = true /\
  listings (st (after_loadListings (st world_page3) [] 4 true rejecting world_page3))
  = [].
Proof.
  exact (loadListings_failure_keeps_pagination
           (st world_page3) [] 4 true rejecting world_page3 (mkError None)
           eq_refl).
Defined.

(* ===================================================================== *)
(** ** Load more *)
(* ===================================================================== *)

(** C9.  "Load more" does nothing while a load is in flight or while
    [hasMoreListings] is false; otherwise it sends the request for page
    [page + 1] and appends the answer to the result buffer; in every case the
    filter state is left as it was. *)
Theorem loadMoreListings_contract :
  forall srv w,
    let w' := after_loadMore srv w in
    filters (st w') = filters (st w) /\
    (loading (st w) = true \/ hasMoreListings (st w) = false -> w' = w) /\
    (loading (st w) = false /\ hasMoreListings (st w) = true ->
       net w' = net w ++ [listings_request (st w) [] (page (st w) + 1)] /\
       In ("page", Js.of_nat (page (st w) + 1))
          (listing_params (filters (st w)) [] (page (st w) + 1)) /\
       forall data,
         srv (length (net w)) (listings_request (st w) [] (page (st w) + 1))
           = inl data ->
         listings (st w') = listings (st w) ++ data /\
         page (st w') = page (st w) + 1).
Proof.
  intros srv w w'. subst w'. unfold after_loadMore, invoke, loadMoreListings.
  destruct (hasMoreListings (st w)) eqn:Hm, (loading (st w)) eqn:Hl; cbn [andb negb].
  1, 3, 4: (split; [reflexivity|]; split; [reflexivity|];
            intros [H1 H2]; discriminate).
  cbn [run fst].
  change (fst (run (loadListings (st w) [] (page (st w) + 1) true) srv w))
    with (after_loadListings (st w) [] (page (st w) + 1) true srv w).
  split; [|split].
  - on_answer (st w) (@nil (string * string)) (page (st w) + 1) true srv w;
      reflexivity.
  - intros [H|H]; discriminate.
  - intros _. split; [apply loadListings_sends|]. split.
    + unfold listing_params. apply in_or_app. left. apply in_or_app. right.
      left. reflexivity.
    + intros data H. unfold after_loadListings.
      rewrite (loadListings_success _ _ _ true _ _ _ H). cbn. auto.
Qed.

Lemma loadMoreListings_contract_witness :
  net (after_loadMore (serving (pageOf 20)) world_page3)
  = [GET_listings [("sort_by", "recent"); ("page", "4"); ("limit", "20")]] /\
  listings (st (after_loadMore (serving (pageOf 20)) world_page3))
  = pageOf 60 ++ pageOf 20 /\
  page (st (after_loadMore (serving (pageOf 20)) world_page3)) = 4 /\
  after_loadMore (serving (pageOf 20)) (upd_st (setLoading true) world_page3)
  = upd_st (setLoading true) world_page3.
Proof.
  destruct (loadMoreListings_contract (serving (pageOf 20)) world_page3)
    as [_ [_ H]].
  destruct (H (conj eq_refl eq_refl)) as [Hn [_ Hd]].
  destruct (Hd (pageOf 20) eq_refl) as [Hl Hp].
  destruct (loadMoreListings_contract (serving (pageOf 20))
              (upd_st (setLoading true) world_page3)) as [_ [Hnoop _]].
  split; [exact Hn|]. split; [exact Hl|]. split; [exact Hp|].
  apply Hnoop. left. reflexivity.
Defined.

(* ===================================================================== *)
(** ** Filter changes *)
(* ===================================================================== *)

Lemma same_listing_deps_false (f g : Filters) :
  same_listing_deps f g = false <-> listing_deps_changed f g.
Proof.
  unfold same_listing_deps, listing_deps_changed.
  rewrite !andb_false_iff, !String.eqb_neq. tauto.
Qed.

Lemma same_listing_deps_true (f g : Filters) :
  same_listing_deps f g = true <->
  brand f = brand g /\ city f = city g /\
  condition f = condition g /\ sortBy f = sortBy g.
Proof.
  unfold same_listing_deps. rewrite !andb_true_iff, !String.eqb_eq. tauto.
Qed.

(** C1 (amended).  A filter change that touches [brand], [city], [condition]
    or [sortBy] sends a listings request for page 1 built from the new
    filters, and when that request succeeds the result buffer is replaced by
    the answer and [page] becomes 1.  A change that touches none of these four
    fields (only [search], [minPrice], [maxPrice]) stores the filters and does
    nothing else. *)
Theorem filter_change_reloads_first_page :
  forall next srv w,
    let w' := after_changeFilters next srv w in
    let c' := setFilters next (st w) in
    filters (st w') = next /\
    (listing_deps_changed (filters (st w)) next ->
       net w' = net w ++ [listings_request c' [] 1] /\
       In ("page", "1") (listing_params next [] 1) /\
       forall data,
         srv (length (net w)) (listings_request c' [] 1) = inl data ->
         listings (st w') = data /\ page (st w') = 1) /\
    (~ listing_deps_changed (filters (st w)) next ->
       w' = upd_st (setFilters next) w).
Proof.
  intros next srv w w' c'. subst w' c'.
  unfold after_changeFilters, invoke, changeFilters, effect_filters.
  cbn [setState bind run fst].
  change (filters (st (upd_st (setFilters next) w))) with next.
  destruct (same_listing_deps (filters (st w)) next) eqn:Hd.
  - cbn. split; [reflexivity|]. split.
    + intros Hc. apply same_listing_deps_false in Hc. congruence.
    + reflexivity.
  - cbn [run fst].
    set (w1 := upd_st (setFilters next) w).
    change (fst (run (loadListings (st w1) [] 1 false) srv w1))
      with (after_loadListings (st w1) [] 1 false srv w1).
    assert (Hw1 : st w1 = setFilters next (st w)) by reflexivity.
    split; [|split].
    + on_answer (st w1) (@nil (string * string)) 1 false srv w1; reflexivity.
    + intros _. split; [apply (loadListings_sends (st w1) [] 1 false srv w1)|].
      split.
      * unfold listing_params. apply in_or_app. left. apply in_or_app. right.
        left. reflexivity.
      * intros data H. unfold after_loadListings.
        rewrite (loadListings_success (st w1) [] 1 false srv w1 data H).
        cbn. auto.
    + intros Hn. exfalso. apply Hn. apply same_listing_deps_false. exact Hd.
Qed.

Lemma filter_change_reloads_first_page_witness :
  listings (st (after_changeFilters appleFilters (serving (pageOf 20)) world_page3))
  = pageOf 20 /\
  page (st (after_changeFilters appleFilters (serving (pageOf 20)) world_page3))
  = 1.
Proof.
  destruct (filter_change_reloads_first_page
              appleFilters (serving (pageOf 20)) world_page3) as [_ [H _]].
  destruct H as [_ [_ H]].
  - left. discriminate.
  - exact (H (pageOf 20) eq_refl).
Defined.

(** C1 as stated fails.  Typing into the search box changes [filters.search]
    on page 3: no request is sent and [page] stays 3; the next request is the
    one of "load more", for page 4, and its answer is appended.  And when the
    request that a change of [brand] sends is rejected, [page] stays 3 too. *)
Lemma search_change_keeps_page :
  let w := world_page3 in
  let next := with_search "iph" (filters (st w)) in
  let w1 := after_changeFilters next (serving (pageOf 20)) w in
  let w2 := after_loadMore (serving (pageOf 20)) w1 in
  let w3 := after_changeFilters appleFilters rejecting w in
  next <> filters (st w) /\
  net w1 = [] /\ page (st w1) = 3 /\ listings (st w1) = pageOf 60 /\
  net w2 = [GET_listings [("sort_by", "recent"); ("search", "iph");
                          ("page", "4"); ("limit", "20")]] /\
  listings (st w2) = pageOf 60 ++ pageOf 20 /\
  net w3 = [GET_listings [("brand", "Apple"); ("sort_by", "recent");
                          ("page", "1"); ("limit", "20")]] /\
  page (st w3) = 3.
Proof.
  cbv zeta. split; [discriminate|]. repeat split.
Qed.

(* ===================================================================== *)
(** ** The search suggestion engine *)
(* ===================================================================== *)


Lemma matches_of_unique (value : string) (catalog ms ms' : list string) :
  matches_of value catalog ms -> matches_of value catalog ms' -> ms = ms'.
Proof.
  intros H. revert ms'. induction H; intros ms' H'; inversion H'; subst;
    try reflexivity; try contradiction; auto using f_equal.
Qed.

Lemma matches_of_in (value : string) (catalog ms : list string) :
  matches_of value catalog ms ->
  forall m, In m ms <-> In m catalog /\ contains_ci m value.
Proof.
  induction 1 as [|m0 catalog ms Hc _ IH|m0 catalog ms Hc _ IH]; intros m; cbn.
  - tauto.
  - rewrite IH. split.
    + intros [->|[I C]]; auto.
    + intros [[->|I] C]; auto.
  - rewrite IH. split.
    + intros [I C]; auto.
    + intros [[->|I] C]; [contradiction|auto].
Qed.



Example suggestions_for_iph :
  searchSuggestions (st (after_searchInput "iPh" rejecting world0)) =
  ["iPhone 15 Pro Max"; "iPhone 15 Pro"; "iPhone 15"; "iPhone 14 Pro Max";
   "iPhone 14 Pro"; "iPhone 14"].
Proof. reflexivity. Qed.

Example suggestions_for_pixel :
  searchSuggestions (st (after_searchInput "PIXEL 7" rejecting world0)) =
  ["Google Pixel 7 Pro"; "Google Pixel 7"].
Proof. reflexivity. Qed.

(** Submitting a search shows the results view, sends the search text and
    replaces the result buffer by the answer. *)
Example search_galaxy_s24 :
  let w := upd_st (setListings (pageOf 3)) world0 in
  let w' := invoke (handleSearch "Galaxy S24") (serving (pageOf 2)) w in
  currentPage (st w') = "searchResults" /\
  net w' = [GET_listings [("sort_by", "recent"); ("search", "Galaxy S24");
                          ("page", "1"); ("limit", "20")]] /\
  listings (st w') = pageOf 2 /\
  searchHistory (st w') = ["Galaxy S24"; "iPhone 13"; "Samsung S24"; "Xiaomi Note"].
Proof. cbv zeta. repeat split. Qed.

(* ===================================================================== *)
(** ** Actions that need a signed-in user *)
(* ===================================================================== *)

Lemma showToast_only_toast (message : string) (srv : Server) (w : World) :
  only_toast message w (fst (run (showToast message "error") srv w)).
Proof. unfold only_toast. cbn. repeat split. Qed.

(** C7.  Without a signed-in user, toggling a favorite, sending a message
    and submitting a review each raise an error toast, send no call and
    leave the rest of the state as it was. *)
Theorem unauthenticated_actions_only_toast :
  forall srv w,
    user (st w) = None ->
    (forall listingId,
        only_toast "Please login to add favorites" w
          (invoke (toggleFavorite listingId) srv w)) /\
    (forall receiverId listingId content messageType offerAmount,
        only_toast "Please login to send messages" w
          (invoke (sendMessage receiverId listingId content messageType
                     offerAmount) srv w)) /\
    (forall reviewedUserId listingId rating comment,
        only_toast "Please login to submit reviews" w
          (invoke (submitReview reviewedUserId listingId rating comment) srv w)).
Proof.
  intros srv w Hu. unfold invoke, toggleFavorite, sendMessage, submitReview.
  rewrite Hu. repeat split; intros; apply showToast_only_toast.
Qed.

Lemma unauthenticated_actions_only_toast_witness :
  net (invoke (toggleFavorite 3) accepting world0) = [] /\
  net (invoke (sendMessage 2 3 "Still available?" "text" None) accepting world0)
  = [] /\
  net (invoke (submitReview 2 3 5 "Smooth deal") accepting world0) = [].
Proof.
  destruct (unauthenticated_actions_only_toast accepting world0 eq_refl)
    as [Hf [Hm Hr]].
  split; [apply (Hf 3)|].
  split; [apply (Hm 2 3 "Still available?" "text" None)|].
  apply (Hr 2 3 5 "Smooth deal").
Defined.

(** With a signed-in user the same actions do reach the backend. *)
Example authenticated_actions_send :
  let w := upd_st (setUser (Some sampleUser)) world0 in
  net (invoke (toggleFavorite 3) accepting w) = [POST_favorites 3; GET_favorites] /\
  net (invoke (sendMessage 2 3 "Still available?" "text" None) accepting w)
  = [POST_messages (mkMessageBody 2 3 "Still available?" "text" None);
     GET_conversations] /\
  net (invoke (submitReview 2 3 5 "Smooth deal") accepting w)
  = [POST_reviews (mkReviewBody 2 3 5 "Smooth deal"); GET_user_reviews 2].
Proof. cbv zeta. repeat split. Qed.

(* ===================================================================== *)
(** ** Session *)
(* ===================================================================== *)

(** C8.  A login that the backend accepts stores the access token in the
    state and in [localStorage], sets the user of the response and shows the
    home view; a login that it rejects raises a toast with the server's
    [detail] text, or with "Login failed" when there is none, and leaves the
    view, the token (null stays null), the stored token and the user as
    they were. *)
Theorem handleLogin_contract :
  forall loginData srv w,
    let w' := after_login loginData srv w in
    match srv (length (net w)) (POST_auth_login loginData) with
    | inl response =>
        token (st w') = Some (access_token response) /\
        Js.get "token" (localStorage w') = Some (access_token response) /\
        user (st w') = Some (auth_user response) /\
        currentPage (st w') = "home"
    | inr error =>
        toast (st w') = Some (Toast.mk (error_text error "Login failed") "error") /\
        currentPage (st w') = currentPage (st w) /\
        token (st w') = token (st w) /\
        (token (st w) = None -> token (st w') = None) /\
        localStorage w' = localStorage w /\
        user (st w') = user (st w)
    end.
Proof.
  intros d srv w w'. subst w'. unfold after_login, invoke, handleLogin. cbn.
  destruct (srv (length (net w)) (POST_auth_login d)) as [response|error]; cbn.
  - repeat split. apply get_set_same.
  - repeat split; auto.
Qed.

Lemma handleLogin_contract_witness :
  (token (st (after_login sampleLogin accepting world0)) = Some "tok" /\
   Js.get "token" (localStorage (after_login sampleLogin accepting world0))
   = Some "tok" /\
   user (st (after_login sampleLogin accepting world0)) = Some sampleUser /\
   currentPage (st (after_login sampleLogin accepting world0)) = "home") /\
  (toast (st (after_login sampleLogin (refusing "Invalid credentials") world0))
   = Some (Toast.mk "Invalid credentials" "error") /\
   currentPage (st (after_login sampleLogin (refusing "Invalid credentials") world0))
   = "home" /\
   token (st (after_login sampleLogin (refusing "Invalid credentials") world0))
   = None).
Proof.
  pose proof (handleLogin_contract sampleLogin accepting world0) as Hok.
  pose proof (handleLogin_contract sampleLogin (refusing "Invalid credentials")
                world0) as Hko.
  cbv zeta in Hok, Hko. cbn [accepting refusing] in Hok, Hko.
  split; [exact Hok|].
  destruct Hko as [Ht [Hp [_ [Hk _]]]].
  split; [exact Ht|]. split; [exact Hp | exact (Hk eq_refl)].
Defined.

(** With a token in the state, the effect asks the backend for the current
    user; when that call fails the token is removed from the state and from
    [localStorage], and the user is left as it was. *)
Lemma token_effect_failure (srv : Server) (w : World) (t : string) (e : AxiosError) :
  token (st w) = Some t -> Js.truthy t = true ->
  srv (length (net w)) GET_auth_me = inr e ->
  let w' := after_token_effect srv w in
  net w' = net w ++ [GET_auth_me] /\
  token (st w') = None /\
  localStorage w' = Js.remove "token" (localStorage w) /\
  user (st w') = user (st w).
Proof.
  intros Ht Hy Hs w'. subst w'. unfold after_token_effect, invoke, effect_token.
  rewrite Ht, Hy. unfold loadCurrentUser. cbn. rewrite Hs. cbn. auto.
Qed.

(** C4 on the code: after a login, the effect on [token] fetches the current
    user; when that fetch fails the token is cleared from the state and from
    [localStorage], but the user of the login response stays in the state. *)
Theorem failed_user_fetch_keeps_user :
  let w1 := after_login sampleLogin login_only world0 in
  let w2 := after_token_effect login_only w1 in
  token (st w1) = Some "tok" /\ user (st w1) = Some sampleUser /\
  net w2 = [POST_auth_login sampleLogin; GET_auth_me] /\
  token (st w2) = None /\
  Js.get "token" (localStorage w2) = None /\
  authorization w2 = Some "Bearer tok" /\
  user (st w2) = Some sampleUser.
Proof. cbv zeta. repeat split. Qed.

(* ===================================================================== *)
(** ** Session: logout and the effect on the token *)
(* ===================================================================== *)

Lemma existsb_eqb_In (x : string) (l : list string) :
  existsb (String.eqb x) l = true <-> In x l.
Proof.
  rewrite existsb_exists. split.
  - intros [y [Hy E]]. apply String.eqb_eq in E. now subst.
  - intros H. exists x. split; [exact H | apply String.eqb_refl].
Qed.

Lemma existsb_eqb_not_In (x : string) (l : list string) :
  existsb (String.eqb x) l = false <-> ~ In x l.
Proof.
  rewrite <- existsb_eqb_In. destruct (existsb (String.eqb x) l); split;
    congruence.
Qed.

(** X1.  Logging out ends the session: the token and the user are cleared,
    the stored token is gone, the view is the home page and no call is sent;
    after the next render the [Authorization] header is removed too, and
    toggling a favorite then only raises the login toast.  The favorites,
    conversations and messages that were loaded stay in the state. *)
Theorem logout_ends_session :
  forall srv w,
    Js.distinct_keys (localStorage w) ->
    let w1 := invoke handleLogout srv w in
    let w2 := after_token_effect srv w1 in
    token (st w2) = None /\ user (st w2) = None /\
    Js.get "token" (localStorage w2) = None /\
    authorization w2 = None /\
    currentPage (st w2) = "home" /\
    toast (st w2) = Some (Toast.mk "Logged out successfully" "info") /\
    net w2 = net w /\
    (favorites (st w2) = favorites (st w) /\
     conversations (st w2) = conversations (st w) /\
     messages (st w2) = messages (st w)) /\
    forall listingId,
      only_toast "Please login to add favorites" w2
        (invoke (toggleFavorite listingId) srv w2).
Proof.
  intros srv w Hd w1 w2. subst w1 w2.
  unfold after_token_effect, invoke, handleLogout. cbn.
  repeat split.
  - apply get_remove_same. exact Hd.
Qed.

Lemma logout_ends_session_witness :
  let w := after_login sampleLogin accepting world0 in
  token (st w) = Some "tok" /\
  token (st (after_token_effect accepting (invoke handleLogout accepting w)))
  = None /\
  Js.get "token"
    (localStorage (after_token_effect accepting (invoke handleLogout accepting w)))
  = None.
Proof.
  cbv zeta. split; [reflexivity|].
  assert (Hd : Js.distinct_keys
                 (localStorage (after_login sampleLogin accepting world0))).
  { unfold Js.distinct_keys. cbn. repeat constructor. intros []. }
  destruct (logout_ends_session accepting
              (after_login sampleLogin accepting world0) Hd)
    as [Ht [_ [Hs _]]].
  split; [exact Ht | exact Hs].
Defined.

(** X2.  The effect on the token: without a token (null or empty) it only
    removes the [Authorization] header; with a token it sets the header to
    the bearer token and sends exactly one call, [GET /auth/me], whose
    answer, when there is one, becomes the user while the token and the
    stored token are left alone. *)
Theorem token_effect_contract :
  forall srv w,
    let w' := after_token_effect srv w in
    match token (st w) with
    | Some t =>
        if Js.truthy t
        then net w' = net w ++ [GET_auth_me] /\
             authorization w' = Some (String.append "Bearer " t) /\
             forall u,
               srv (length (net w)) GET_auth_me = inl u ->
               user (st w') = Some u /\ token (st w') = Some t /\
               localStorage w' = localStorage w
        else w' = set_authorization None w
    | None => w' = set_authorization None w
    end.
Proof.
  intros srv w w'. subst w'. unfold after_token_effect, invoke, effect_token.
  destruct (token (st w)) as [t|] eqn:Ht; [|reflexivity].
  destruct (Js.truthy t); [|reflexivity].
  unfold loadCurrentUser. cbn.
  destruct (srv (length (net w)) GET_auth_me) as [u|e] eqn:Ha; cbn.
  - split; [reflexivity|]. split; [reflexivity|].
    intros u' Hu. injection Hu as <-. auto.
  - split; [reflexivity|]. split; [reflexivity|].
    intros u' Hu. discriminate.
Qed.

Lemma token_effect_contract_witness :
  let w := mkWorld (initialState (Some "tok")) [("token", "tok")] None [] [] in
  user (st (after_token_effect accepting w)) = Some sampleUser /\
  authorization (after_token_effect accepting w) = Some "Bearer tok" /\
  after_token_effect accepting world0 = world0.
Proof.
  cbv zeta.
  pose proof (token_effect_contract accepting
                (mkWorld (initialState (Some "tok")) [("token", "tok")] None [] []))
    as H.
  cbv zeta in H. cbn [token st initialState Js.truthy] in H.
  destruct H as [_ [Hh Hu]]. destruct (Hu sampleUser eq_refl) as [Hu' _].
  pose proof (token_effect_contract accepting world0) as H0.
  split; [exact Hu'|]. split; [exact Hh | exact H0].
Defined.

(* ===================================================================== *)
(** ** Requests for usual overrides *)
(* ===================================================================== *)

(** Case analysis on the emptiness of the six fields a request reads. *)
Ltac by_fields f :=
  let b := fresh "b" in let c := fresh "c" in let d := fresh "d" in
  let s := fresh "s" in let mi := fresh "mi" in let ma := fresh "ma" in
  let so := fresh "so" in
  destruct f as [b c d s mi ma so];
  destruct b, c, d, mi, ma, so.

Lemma listing_params_no_override (f : Filters) (n : nat) :
  listing_params f [] n =
  stored_params f ++ param_if_nonempty "search" (search f) ++ paging_params n.
Proof. by_fields f; destruct s; reflexivity. Qed.

Lemma listing_params_search_override (f : Filters) (t : string) (n : nat) :
  Js.truthy t = true ->
  listing_params f [("search", t)] n =
  stored_params f ++ [("search", t)] ++ paging_params n.
Proof.
  destruct t; [discriminate|]. intros _. by_fields f; reflexivity.
Qed.

Lemma listing_params_brand_override (f : Filters) (v : string) (n : nat) :
  listing_params f [("brand", v)] n = listing_params (with_brand v f) [] n.
Proof. by_fields f; destruct v, s; reflexivity. Qed.

Lemma listing_params_condition_override (f : Filters) (v : string) (n : nat) :
  listing_params f [("condition", v)] n = listing_params (with_condition v f) [] n.
Proof. by_fields f; destruct v, s; reflexivity. Qed.

Lemma get_app_skip (k : string) (a b : Js.obj) :
  ~ In k (Js.keys a) -> Js.get k (a ++ b) = Js.get k b.
Proof.
  induction a as [|[k' v] a IH]; cbn; [reflexivity|].
  intros H. destruct (String.eqb_spec k' k) as [->|_].
  - exfalso. apply H. now left.
  - apply IH. intros I. apply H. now right.
Qed.

Lemma stored_params_keys (f : Filters) (k : string) :
  In k (Js.keys (stored_params f)) ->
  In k ["brand"; "city"; "condition"; "min_price"; "max_price"; "sort_by"].
Proof.
  by_fields f; cbn; intuition.
Qed.

(** A request with a search override carries the search text as given. *)
Lemma search_override_sent (f : Filters) (t : string) (n : nat) :
  Js.truthy t = true ->
  Js.get "search" (listing_params f [("search", t)] n) = Some t /\
  Js.get "page" (listing_params f [("search", t)] n) = Some (Js.of_nat n).
Proof.
  intros Ht. rewrite (listing_params_search_override f t n Ht).
  split; (rewrite get_app_skip; [reflexivity|]);
    intros I; apply stored_params_keys in I; cbn in I;
    intuition discriminate.
Qed.

(* ===================================================================== *)
(** ** Search: history, submitted queries and suggestions *)
(* ===================================================================== *)

Lemma trimStart_blank (s : string) :
  Str.blank s = true -> Str.trimStart s = "".
Proof.
  induction s as [|c s IH]; cbn; [reflexivity|].
  destruct (Str.is_space c); cbn; [exact IH | discriminate].
Qed.

Lemma trimStart_not_blank (s : string) :
  Str.blank s = false ->
  exists c s', Str.trimStart s = String c s' /\ Str.is_space c = false.
Proof.
  induction s as [|c s IH]; cbn; [discriminate|].
  destruct (Str.is_space c) eqn:E; cbn.
  - exact IH.
  - intros _. now exists c, s.
Qed.

(** [!query.trim()] holds exactly for the queries made of white space. *)
Lemma trim_truthy (s : string) :
  Js.truthy (Str.trim s) = negb (Str.blank s).
Proof.
  unfold Str.trim. destruct (Str.blank s) eqn:B.
  - now rewrite (trimStart_blank s B).
  - destruct (trimStart_not_blank s B) as [c [s' [-> E]]]. cbn.
    now rewrite E.
Qed.

Lemma not_blank_truthy (s : string) : Str.blank s = false -> Js.truthy s = true.
Proof. destruct s; [discriminate | reflexivity]. Qed.

Lemma In_firstn {A : Type} (n : nat) (x : A) (l : list A) :
  In x (firstn n l) -> In x l.
Proof.
  revert n. induction l as [|y l IH]; intros [|n]; cbn; try tauto.
  intros [E|I]; [now left | right; now apply (IH n)].
Qed.

Lemma firstn_NoDup {A : Type} (n : nat) (l : list A) :
  NoDup l -> NoDup (firstn n l).
Proof.
  revert n. induction l as [|x l IH]; intros [|n] H; cbn; try constructor.
  - inversion H; subst. intros I. apply In_firstn in I. contradiction.
  - inversion H; subst. now apply IH.
Qed.

Lemma firstn_not_In {A : Type} (n : nat) (x : A) (l : list A) :
  ~ In x l -> ~ In x (firstn n l).
Proof. intros H I. apply H. now apply In_firstn in I. Qed.

(** X3.  The search history of [handleSearch]: an empty term and a term
    that is already in the history leave the history as it is (the term is
    not moved to the front); a new term goes first and at most 4 older
    entries are kept, so the history then has at most 5 entries; a history
    without repetition stays without repetition. *)
Theorem handleSearch_history :
  forall term srv w,
    let h := searchHistory (st w) in
    let h' := searchHistory (st (invoke (handleSearch term) srv w)) in
    (term = "" \/ In term h -> h' = h) /\
    (term <> "" /\ ~ In term h ->
       h' = term :: firstn 4 h /\ length h' <= 5) /\
    (NoDup h -> NoDup h').
Proof.
  intros term srv w h h'.
  assert (Hh' : h' = if Js.truthy term && negb (existsb (String.eqb term) h)
                     then term :: firstn 4 h else h).
  { subst h h'. unfold invoke, handleSearch.
    destruct (Js.truthy term && negb (existsb (String.eqb term) (searchHistory (st w))));
      cbn [bind setState run fst];
      match goal with
      | |- context [run (loadListings ?c ?sf ?n ?app) ?srv ?w0] =>
          change (fst (run (loadListings c sf n app) srv w0))
            with (after_loadListings c sf n app srv w0);
          on_answer c sf n app srv w0; reflexivity
      end. }
  rewrite Hh'. clear Hh'. split; [|split].
  - intros [->|Hin]; [reflexivity|].
    apply existsb_eqb_In in Hin. rewrite Hin. now rewrite andb_false_r.
  - intros [Hne Hnin]. apply existsb_eqb_not_In in Hnin. rewrite Hnin.
    destruct term; [congruence|]. cbn [Js.truthy andb negb].
    split; [reflexivity|]. cbn [length]. rewrite length_firstn. lia.
  - intros Hd.
    destruct (Js.truthy term && negb (existsb (String.eqb term) h)) eqn:E;
      [|exact Hd].
    apply andb_true_iff in E. destruct E as [_ E].
    apply negb_true_iff, existsb_eqb_not_In in E.
    constructor; [now apply firstn_not_In | now apply firstn_NoDup].
Qed.

Example handleSearch_history_known_term :
  searchHistory (st (invoke (handleSearch "Samsung S24") rejecting world0))
  = ["iPhone 13"; "Samsung S24"; "Xiaomi Note"].
Proof. reflexivity. Qed.

(** Rewrites the run of a [loadListings] in the goal by its two outcomes. *)
Ltac answer_cases :=
  match goal with
  | |- context [run (loadListings ?c ?sf ?n ?app) ?srv ?w0] =>
      change (fst (run (loadListings c sf n app) srv w0))
        with (after_loadListings c sf n app srv w0);
      on_answer c sf n app srv w0
  end.

(** X4.  Submitting a non-empty search term with [handleSearch] sends one
    listings request, for page 1, whose [search] parameter is the term as
    given; it stores the term in the filters, and when the request succeeds
    the result buffer is replaced by the answer.  The view becomes
    "searchResults", which the router of App.js renders as the home page and
    the router of the variant as the results page. *)
Theorem handleSearch_request :
  forall term srv w,
    Js.truthy term = true ->
    let w' := invoke (handleSearch term) srv w in
    let req := listing_params (filters (st w)) [("search", term)] 1 in
    net w' = net w ++ [GET_listings req] /\
    Js.get "search" req = Some term /\
    Js.get "page" req = Some "1" /\
    filters (st w') = with_search term (filters (st w)) /\
    (forall data,
        srv (length (net w)) (GET_listings req) = inl data ->
        listings (st w') = data /\ page (st w') = 1) /\
    currentPage (st w') = "searchResults" /\
    renderCurrentPage (currentPage (st w')) = HomePage /\
    renderCurrentPage_variant (currentPage (st w')) = SearchResultsPage.
Proof.
  intros term srv w Ht w' req.
  destruct (search_override_sent (filters (st w)) term 1 Ht) as [Hs Hp].
  assert (Hcur : currentPage (st w') = "searchResults").
  { subst w'. unfold invoke, handleSearch. rewrite Ht.
    destruct (true && negb (existsb (String.eqb term) (searchHistory (st w))));
      cbn [bind setState run fst]; answer_cases; reflexivity. }
  rewrite Hcur. subst w' req. unfold invoke, handleSearch. rewrite Ht.
  repeat split; try assumption;
    try (destruct (true && negb (existsb (String.eqb term) (searchHistory (st w))));
         cbn [bind setState run fst]; answer_cases; reflexivity).
  - destruct (true && negb (existsb (String.eqb term) (searchHistory (st w))));
      cbn [bind setState run fst];
      unfold after_loadListings, listings_request in *;
      match goal with
      | |- context [run (loadListings ?c ?sf ?n ?app) ?srv ?w0] =>
          rewrite (loadListings_success c sf n app srv w0 data H)
      end; reflexivity.
  - destruct (true && negb (existsb (String.eqb term) (searchHistory (st w))));
      cbn [bind setState run fst];
      unfold after_loadListings, listings_request in *;
      match goal with
      | |- context [run (loadListings ?c ?sf ?n ?app) ?srv ?w0] =>
          rewrite (loadListings_success c sf n app srv w0 data H)
      end; reflexivity.
Qed.

Lemma handleSearch_request_witness :
  net (invoke (handleSearch "Galaxy S24") (serving (pageOf 2)) world_page3)
  = [GET_listings [("sort_by", "recent"); ("search", "Galaxy S24");
                   ("page", "1"); ("limit", "20")]] /\
  listings (st (invoke (handleSearch "Galaxy S24") (serving (pageOf 2))
                  world_page3)) = pageOf 2 /\
  page (st (invoke (handleSearch "Galaxy S24") (serving (pageOf 2)) world_page3))
  = 1.
Proof.
  destruct (handleSearch_request "Galaxy S24" (serving (pageOf 2)) world_page3
              eq_refl) as [Hn [_ [_ [_ [Hd _]]]]].
  destruct (Hd (pageOf 2) eq_refl) as [Hl Hp].
  split; [exact Hn|]. split; [exact Hl | exact Hp].
Defined.

(** The world after [performSearch], called from a render with state [c],
    with a query that is not blank. *)
Lemma performSearch_run (query : string) (c : State) (srv : Server) (w : World) :
  Str.blank query = false ->
  fst (run (performSearch query c) srv w) =
  after_loadListings c [("search", query)] 1 false srv
    (upd_st (fun s =>
       setShowSuggestions false
         (setCurrentPage "searchResults"
            (if existsb (String.eqb query) (searchHistory c) then s
             else setSearchHistory (query :: firstn 9 (searchHistory c)) s)))
       w).
Proof.
  intros B. unfold performSearch, after_loadListings.
  rewrite trim_truthy, B. cbn [negb].
  destruct (existsb (String.eqb query) (searchHistory c));
    cbn [negb bind setState run fst]; reflexivity.
Qed.



Lemma catalog_not_blank :
  Forall (fun m => Str.blank m = false) phoneModels.
Proof. repeat constructor. Qed.

Lemma suggestions_in_catalog (value : string) (srv : Server) (w : World) (s : string) :
  value <> "" ->
  In s (searchSuggestions (st (after_searchInput value srv w))) ->
  In s phoneModels.
Proof.
  intros Hv. unfold after_searchInput, invoke, handleSearchInput.
  destruct value as [|a value]; [congruence|].
  cbn [String.length Nat.ltb Nat.leb setState bind run fst upd_st st
       searchSuggestions setShowSuggestions setSearchSuggestions].
  intros I. apply In_firstn in I. apply filter_In in I. tauto.
Qed.

(** X6.  Picking a suggestion: every entry of the list that a non-empty
    keystroke computed, once picked, becomes the search text of the box and
    of the filters, hides the suggestions, shows the results view and sends
    one request for page 1 whose [search] parameter is the suggestion (not
    the text that was typed). *)
Theorem selectSuggestion_after_typing :
  forall value srv w s,
    value <> "" ->
    let w1 := after_searchInput value srv w in
    In s (searchSuggestions (st w1)) ->
    let w2 := invoke (selectSuggestion s) srv w1 in
    let req := listing_params (filters (st w1)) [("search", s)] 1 in
    net w2 = net w1 ++ [GET_listings req] /\
    Js.get "search" req = Some s /\
    Js.get "page" req = Some "1" /\
    searchQuery (st w2) = s /\
    search (filters (st w2)) = s /\
    showSuggestions (st w2) = false /\
    currentPage (st w2) = "searchResults".
Proof.
  intros value srv w s Hv w1 Hin w2 req.
  assert (Hb : Str.blank s = false).
  { pose proof catalog_not_blank as Hc. rewrite Forall_forall in Hc.
    apply Hc. exact (suggestions_in_catalog value srv w s Hv Hin). }
  destruct (search_override_sent (filters (st w1)) s 1 (not_blank_truthy s Hb))
    as [Hs Hp].
  subst w2. unfold invoke, selectSuggestion. cbn [bind setState run].
  rewrite (performSearch_run s (st w1) srv _ Hb).
  set (w0 := upd_st _ _).
  split; [apply (loadListings_sends (st w1) [("search", s)] 1 false srv w0)|].
  split; [exact Hs|]. split; [exact Hp|].
  on_answer (st w1) [("search", s)] 1 false srv w0; subst w0;
    destruct (existsb (String.eqb s) (searchHistory (st w1))); repeat split.
Qed.

Lemma selectSuggestion_after_typing_witness :
  net (invoke (selectSuggestion "iPhone 15 Pro") accepting
         (after_searchInput "iph" accepting world0))
  = [GET_listings [("sort_by", "recent"); ("search", "iPhone 15 Pro");
                   ("page", "1"); ("limit", "20")]] /\
  search (filters (st (invoke (selectSuggestion "iPhone 15 Pro") accepting
                         (after_searchInput "iph" accepting world0))))
  = "iPhone 15 Pro".
Proof.
  assert (Hv : "iph" <> "") by discriminate.
  assert (Hin : In "iPhone 15 Pro"
                  (searchSuggestions (st (after_searchInput "iph" accepting world0))))
    by (vm_compute; right; left; reflexivity).
  destruct (selectSuggestion_after_typing "iph" accepting world0 "iPhone 15 Pro"
              Hv Hin) as [Hn [_ [_ [_ [Hs _]]]]].
  split; [exact Hn | exact Hs].
Defined.

(* ===================================================================== *)
(** ** Filter controls and pagination *)
(* ===================================================================== *)

(** [loadListings] writes neither the filters nor the view. *)
Lemma loadListings_frame (c : State) (sf : Js.obj) (n : nat) (app : bool)
  (srv : Server) (w : World) :
  filters (st (after_loadListings c sf n app srv w)) = filters (st w) /\
  currentPage (st (after_loadListings c sf n app srv w)) = currentPage (st w) /\
  loading (st (after_loadListings c sf n app srv w)) = false.
Proof. on_answer c sf n app srv w; repeat split. Qed.

(** The listings effect after a handler that left the filters [next] and
    the world [w1], when the previous render had the filters [prev]. *)
Lemma effect_filters_run (prev : Filters) (srv : Server) (w1 : World) :
  fst (run (effect_filters prev) srv w1) =
  if same_listing_deps prev (filters (st w1)) then w1
  else after_loadListings (st w1) [] 1 false srv w1.
Proof.
  unfold effect_filters, after_loadListings. cbn [run].
  destruct (same_listing_deps prev (filters (st w1))); reflexivity.
Qed.

(** X7.  The button "Clear Filters" resets the stored filters, but the
    request it sends itself is built from the filters it closed over, those
    before the reset.  When brand, city, condition and sort order already
    had their initial values, that is the only request, and its answer, the
    result for the old search text and price bounds, fills the result
    buffer; otherwise the listings effect sends a second request, built
    from the initial filters. *)
Theorem clearFilters_requests :
  forall srv w,
    let w' := invoke (then_render clearFilters) srv w in
    let old := filters (st w) in
    filters (st w') = initialFilters /\
    (~ listing_deps_changed old initialFilters ->
       net w' = net w ++ [GET_listings (listing_params old [] 1)] /\
       forall data,
         srv (length (net w)) (GET_listings (listing_params old [] 1)) = inl data ->
         listings (st w') = data) /\
    (listing_deps_changed old initialFilters ->
       net w' = net w ++ [GET_listings (listing_params old [] 1);
                          GET_listings [("sort_by", "recent"); ("page", "1");
                                        ("limit", "20")]]).
Proof.
  intros srv w w' old. subst w' old.
  unfold invoke, then_render, clearFilters.
  cbn [bind setState run fst].
  set (w0 := upd_st (setFilters initialFilters) w).
  change (fst (run (loadListings (st w) [] 1 false) srv w0))
    with (after_loadListings (st w) [] 1 false srv w0).
  set (w1 := after_loadListings (st w) [] 1 false srv w0).
  rewrite (effect_filters_run (filters (st w)) srv w1).
  assert (Hf : filters (st w1) = initialFilters)
    by (apply (loadListings_frame (st w) [] 1 false srv w0)).
  assert (Hn : net w1 = net w ++ [GET_listings (listing_params (filters (st w)) [] 1)])
    by (apply (loadListings_sends (st w) [] 1 false srv w0)).
  rewrite Hf.
  destruct (same_listing_deps (filters (st w)) initialFilters) eqn:Hd.
  - split; [exact Hf|]. split.
    + intros _. split; [exact Hn|]. intros data Ha. subst w1.
      unfold after_loadListings.
      rewrite (loadListings_success (st w) [] 1 false srv w0 data Ha).
      reflexivity.
    + intros Hc. apply same_listing_deps_false in Hc. congruence.
  - split; [|split].
    + destruct (loadListings_frame (st w1) [] 1 false srv w1) as [Hf' _].
      now rewrite Hf'.
    + intros Hc. exfalso. apply Hc. now apply same_listing_deps_false.
    + intros _.
      rewrite (loadListings_sends (st w1) [] 1 false srv w1), Hn.
      unfold listings_request. rewrite Hf, <- app_assoc. reflexivity.
Qed.

Lemma clearFilters_requests_witness :
  let w := upd_st (setFilters (with_search "pixel" initialFilters)) world0 in
  net (invoke (then_render clearFilters) (serving (pageOf 2)) w)
  = [GET_listings [("sort_by", "recent"); ("search", "pixel"); ("page", "1");
                   ("limit", "20")]] /\
  filters (st (invoke (then_render clearFilters) (serving (pageOf 2)) w))
  = initialFilters /\
  listings (st (invoke (then_render clearFilters) (serving (pageOf 2)) w))
  = pageOf 2.
Proof.
  cbv zeta.
  destruct (clearFilters_requests (serving (pageOf 2))
              (upd_st (setFilters (with_search "pixel" initialFilters)) world0))
    as [Hf [Hsame _]].
  destruct Hsame as [Hn Hd].
  - intros [H|[H|[H|H]]]; apply H; reflexivity.
  - split; [exact Hn|]. split; [exact Hf | exact (Hd (pageOf 2) eq_refl)].
Defined.

Lemma same_listing_deps_with_brand (f : Filters) (v : string) :
  same_listing_deps f (with_brand v f) = (brand f =? v).
Proof.
  unfold same_listing_deps, with_brand. cbn.
  now rewrite !String.eqb_refl, !andb_true_r.
Qed.

Lemma same_listing_deps_with_condition (f : Filters) (v : string) :
  same_listing_deps f (with_condition v f) = (condition f =? v).
Proof.
  unfold same_listing_deps, with_condition. cbn.
  now rewrite !String.eqb_refl, !andb_true_r.
Qed.

(** The world after a handler of the shape [setFilters(next);
    loadListings(override); setCurrentPage("searchResults")] and the render
    that follows it. *)
Lemma pick_run (next : Filters) (override : Js.obj) (srv : Server) (w : World) :
  let w1 := upd_st (setCurrentPage "searchResults")
              (after_loadListings (st w) override 1 false srv
                 (upd_st (setFilters next) w)) in
  filters (st w1) = next /\
  currentPage (st w1) = "searchResults" /\
  net w1 = net w ++ [listings_request (st w) override 1] /\
  (same_listing_deps (filters (st w)) next = true ->
     fst (run (effect_filters (filters (st w))) srv w1) = w1) /\
  (same_listing_deps (filters (st w)) next = false ->
     net (fst (run (effect_filters (filters (st w))) srv w1))
     = net w ++ [listings_request (st w) override 1;
                 GET_listings (listing_params next [] 1)] /\
     filters (st (fst (run (effect_filters (filters (st w))) srv w1))) = next /\
     currentPage (st (fst (run (effect_filters (filters (st w))) srv w1)))
     = "searchResults").
Proof.
  intros w1.
  set (w0 := upd_st (setFilters next) w) in *.
  assert (Hf : filters (st w1) = next)
    by (apply (loadListings_frame (st w) override 1 false srv w0)).
  assert (Hn : net w1 = net w ++ [listings_request (st w) override 1])
    by (apply (loadListings_sends (st w) override 1 false srv w0)).
  split; [exact Hf|]. split; [reflexivity|]. split; [exact Hn|].
  rewrite (effect_filters_run (filters (st w)) srv w1), Hf.
  split; intros Hd; rewrite Hd; [reflexivity|].
  destruct (loadListings_frame (st w1) [] 1 false srv w1) as [Hf' [Hc' _]].
  rewrite (loadListings_sends (st w1) [] 1 false srv w1), Hn, Hf', Hc'.
  unfold listings_request at 2. rewrite Hf, <- app_assoc.
  repeat split; assumption.
Qed.

(** X8.  A card of the categories page stores the picked brand (or
    condition) in the filters, shows the results view and sends a request
    for page 1 that carries the picked value together with the other stored
    filters.  When the value differs from the stored one, the listings
    effect of the next render sends that same request a second time;
    when it is the stored one, the request is sent once. *)
Theorem category_pick_requests :
  forall value srv w,
    let old := filters (st w) in
    let wb := invoke (then_render (pickBrand value)) srv w in
    let wc := invoke (then_render (pickCondition value)) srv w in
    let rb := GET_listings (listing_params (with_brand value old) [] 1) in
    let rc := GET_listings (listing_params (with_condition value old) [] 1) in
    (filters (st wb) = with_brand value old /\
     currentPage (st wb) = "searchResults" /\
     (brand old = value -> net wb = net w ++ [rb]) /\
     (brand old <> value -> net wb = net w ++ [rb; rb])) /\
    (filters (st wc) = with_condition value old /\
     currentPage (st wc) = "searchResults" /\
     (condition old = value -> net wc = net w ++ [rc]) /\
     (condition old <> value -> net wc = net w ++ [rc; rc])).
Proof.
  intros value srv w old wb wc rb rc. subst old. split.
  - destruct (pick_run (with_brand value (filters (st w))) [("brand", value)] srv w)
      as [Hf [Hc [Hn [Hsame Hdiff]]]].
    rewrite same_listing_deps_with_brand in Hsame, Hdiff.
    unfold listings_request in Hn, Hdiff.
    rewrite (listing_params_brand_override (filters (st w)) value 1) in Hn, Hdiff.
    subst wb rb. unfold invoke, then_render, pickBrand.
    cbn [bind setState run fst].
    change (fst (run (loadListings (st w) [("brand", value)] 1 false) srv
                   (upd_st (setFilters (with_brand value (filters (st w)))) w)))
      with (after_loadListings (st w) [("brand", value)] 1 false srv
              (upd_st (setFilters (with_brand value (filters (st w)))) w)).
    destruct (String.eqb_spec (brand (filters (st w))) value) as [E|E].
    + rewrite (Hsame eq_refl).
      repeat split; try assumption; [intros _; exact Hn | intros Hne; congruence].
    + destruct (Hdiff eq_refl) as [Hn2 [Hf2 Hc2]].
      repeat split; try assumption; [intros He; congruence | intros _; exact Hn2].
  - destruct (pick_run (with_condition value (filters (st w)))
                [("condition", value)] srv w)
      as [Hf [Hc [Hn [Hsame Hdiff]]]].
    rewrite same_listing_deps_with_condition in Hsame, Hdiff.
    unfold listings_request in Hn, Hdiff.
    rewrite (listing_params_condition_override (filters (st w)) value 1)
      in Hn, Hdiff.
    subst wc rc. unfold invoke, then_render, pickCondition.
    cbn [bind setState run fst].
    change (fst (run (loadListings (st w) [("condition", value)] 1 false) srv
                   (upd_st (setFilters (with_condition value (filters (st w)))) w)))
      with (after_loadListings (st w) [("condition", value)] 1 false srv
              (upd_st (setFilters (with_condition value (filters (st w)))) w)).
    destruct (String.eqb_spec (condition (filters (st w))) value) as [E|E].
    + rewrite (Hsame eq_refl).
      repeat split; try assumption; [intros _; exact Hn | intros Hne; congruence].
    + destruct (Hdiff eq_refl) as [Hn2 [Hf2 Hc2]].
      repeat split; try assumption; [intros He; congruence | intros _; exact Hn2].
Qed.

Lemma category_pick_requests_witness :
  net (invoke (then_render (pickBrand "Apple")) (serving (pageOf 2)) world0)
  = [GET_listings [("brand", "Apple"); ("sort_by", "recent"); ("page", "1");
                   ("limit", "20")];
     GET_listings [("brand", "Apple"); ("sort_by", "recent"); ("page", "1");
                   ("limit", "20")]] /\
  net (invoke (then_render (pickCondition "")) (serving (pageOf 2)) world0)
  = [GET_listings [("sort_by", "recent"); ("page", "1"); ("limit", "20")]].
Proof.
  destruct (category_pick_requests "Apple" (serving (pageOf 2)) world0)
    as [[_ [_ [_ Hb]]] _].
  destruct (category_pick_requests "" (serving (pageOf 2)) world0)
    as [_ [_ [_ [Hc _]]]].
  split; [apply Hb; discriminate | apply Hc; reflexivity].
Defined.

Lemma other_params_filter_keys (q : Js.obj) :
  Forall (fun k => is_filter_key k = true) (Js.keys q) -> other_params q = [].
Proof.
  unfold other_params. induction q as [|[k v] q IH]; cbn [Js.keys map filter fst];
    [reflexivity|].
  intros H. inversion H as [|? ? Hk Hq]; subst. rewrite Hk. cbn [negb].
  now apply IH.
Qed.

(** The request for any override object with distinct keys, in terms of the
    filters that [{...filters, ...override}] describes. *)
Lemma listing_params_shape (f : Filters) (q : Js.obj) (n : nat) :
  Js.distinct_keys q ->
  listing_params f q n =
  stored_params (merge_filters f q) ++ other_params q ++
  param_if_nonempty "search" (Js.or_undef (Js.get "search" q) (search f)) ++
  paging_params n.
Proof.
  intros Hq. unfold listing_params.
  rewrite fold_append_entry, (spread_overlay q (entries f) (entries_distinct f) Hq).
  rewrite flat_map_app. cbn [app].
  assert (Hother : flat_map entry_params (fresh_entries (entries f) q)
                   = other_params q).
  { unfold fresh_entries, other_params.
    rewrite (filter_ext _ (fun kv => negb (is_filter_key (fst kv))))
      by (intros kv; now rewrite has_entries).
    clear Hq. induction q as [|[k v] q IH]; cbn [filter fst]; [reflexivity|].
    destruct (is_filter_key k) eqn:Hk; cbn [negb]; [exact IH|].
    cbn [flat_map fst snd]. rewrite (entry_params_other k v Hk).
    now rewrite IH. }
  rewrite Hother. unfold entries. cbn [map flat_map]. unfold overlay.
  cbn [fst snd].
  replace (entry_params ("search", _)) with (@nil (string * string))
    by (unfold entry_params; cbn [fst snd]; rewrite String.eqb_refl;
        cbn [negb]; now rewrite andb_false_r).
  rewrite !entry_params_field by (try reflexivity; discriminate).
  unfold stored_params, merge_filters, merged_field, paging_params.
  cbn [brand city condition minPrice maxPrice sortBy app].
  change (param_name "brand") with "brand".
  change (param_name "city") with "city".
  change (param_name "condition") with "condition".
  change (param_name "minPrice") with "min_price".
  change (param_name "maxPrice") with "max_price".
  change (param_name "sortBy") with "sort_by".
  set (s := Js.or_undef (Js.get "search" q) (search f)).
  assert (Hs : param_if_nonempty "search" s
               = if Js.truthy s then [("search", s)] else [])
    by reflexivity.
  rewrite Hs. destruct (Js.truthy s);
    cbn [app]; rewrite ?app_nil_r, <- ?app_assoc; reflexivity.
Qed.

Lemma stored_params_with_search (f : Filters) (t : string) :
  stored_params (with_search t f) = stored_params f.
Proof. reflexivity. Qed.

(** X9.  Applying a saved search whose object has filter fields only: the
    stored filters become the saved fields laid over the current ones, the
    view becomes "searchResults", and the request that [applySavedSearch]
    sends is the request of those new filters, except for the search text:
    a saved search text that is empty does not clear the text in the
    request, which then still carries the search text of the filters before
    the click. *)
Theorem applySavedSearch_request :
  forall savedSearch srv w,
    let q := search_query savedSearch in
    let old := filters (st w) in
    let new := merge_filters old q in
    let w' := invoke (applySavedSearch savedSearch) srv w in
    Js.wf q ->
    Forall (fun k => is_filter_key k = true) (Js.keys q) ->
    filters (st w') = new /\
    currentPage (st w') = "searchResults" /\
    net w' = net w ++ [GET_listings (listing_params old q 1)] /\
    listing_params old q 1 =
      listing_params (with_search (Js.or (search new) (search old)) new) [] 1 /\
    (search new <> "" \/ search old = "" ->
       listing_params old q 1 = listing_params new [] 1) /\
    (search new = "" -> search old <> "" ->
       Js.get "search" (listing_params old q 1) = Some (search old)).
Proof.
  intros sv srv w q old new w' [Hq _] Hk. subst w'.
  unfold invoke, applySavedSearch. cbn [bind setState run fst].
  fold q. fold old.
  set (w0 := upd_st _ w).
  change (fst (run (loadListings (st w) q 1 false) srv w0))
    with (after_loadListings (st w) q 1 false srv w0).
  destruct (loadListings_frame (st w) q 1 false srv w0) as [Hf _].
  assert (Hreq : listing_params old q 1 =
                 listing_params (with_search (Js.or (search new) (search old)) new)
                                [] 1).
  { rewrite (listing_params_shape old q 1 Hq), (other_params_filter_keys q Hk).
    rewrite listing_params_no_override, stored_params_with_search.
    cbn [app]. do 2 f_equal.
    subst new. unfold merge_filters, merged_field, with_search, Js.or_undef.
    cbn [search]. destruct (Js.get "search" q) as [v|]; [reflexivity|].
    unfold Js.or. now destruct (Js.truthy (search old)). }
  split; [exact Hf|]. split; [reflexivity|].
  split; [apply (loadListings_sends (st w) q 1 false srv w0)|].
  split; [exact Hreq|]. split.
  - intros Hs. rewrite Hreq. f_equal. unfold Js.or.
    destruct (search new) eqn:En; cbn [Js.truthy].
    + destruct Hs as [Hs|Hs]; [congruence|]. rewrite Hs.
      destruct new; cbn in *; now subst.
    + destruct new; cbn in *; now subst.
  - intros Hn Ho. rewrite Hreq, listing_params_no_override.
    rewrite get_app_skip.
    + unfold Js.or. rewrite Hn. cbn [Js.truthy with_search search].
      destruct (search old) eqn:Eo; [congruence|]. cbn. reflexivity.
    + intros I. apply stored_params_keys in I. cbn in I. intuition discriminate.
Qed.

Lemma applySavedSearch_request_witness :
  let w := upd_st (setFilters (with_search "pixel" initialFilters)) world0 in
  let sv := mkSavedSearch "Samsung phones" [("brand", "Samsung"); ("search", "")] in
  filters (st (invoke (applySavedSearch sv) accepting w))
  = mkFilters "Samsung" "" "" "" "" "" "recent" /\
  net (invoke (applySavedSearch sv) accepting w)
  = [GET_listings [("brand", "Samsung"); ("sort_by", "recent");
                   ("search", "pixel"); ("page", "1"); ("limit", "20")]].
Proof.
  cbv zeta.
  assert (Hwf : Js.wf [("brand", "Samsung"); ("search", "")]).
  { split.
    - unfold Js.distinct_keys. cbn.
      repeat (constructor; [cbn; intuition discriminate|]). constructor.
    - repeat constructor. }
  assert (Hk : Forall (fun k => is_filter_key k = true)
                 (Js.keys [("brand", "Samsung"); ("search", "")]))
    by (repeat constructor).
  destruct (applySavedSearch_request
              (mkSavedSearch "Samsung phones" [("brand", "Samsung"); ("search", "")])
              accepting
              (upd_st (setFilters (with_search "pixel" initialFilters)) world0)
              Hwf Hk) as [Hf [_ [Hn _]]].
  split; [exact Hf | exact Hn].
Defined.

(** X10.  After a successful fetch that returned a number of items other
    than 20, "load more" does nothing, whatever the backend would answer. *)
Theorem loadMore_stops_after_short_page :
  forall c searchFilters pageNum append (srv srv' : Server) w
         (data : list Listing.t),
    srv (length (net w)) (listings_request c searchFilters pageNum) = inl data ->
    length data <> 20 ->
    after_loadMore srv' (after_loadListings c searchFilters pageNum append srv w)
    = after_loadListings c searchFilters pageNum append srv w.
Proof.
  intros c sf n app srv srv' w data Ha Hl.
  unfold after_loadMore, invoke, loadMoreListings at 1, after_loadListings.
  rewrite (loadListings_success c sf n app srv w data Ha).
  cbn [fst st upd_st sent hasMoreListings setLoading setPage setHasMoreListings].
  apply Nat.eqb_neq in Hl. rewrite Hl. reflexivity.
Qed.

Lemma loadMore_stops_after_short_page_witness :
  after_loadMore (serving (pageOf 20))
    (after_loadListings (st world0) [] 1 false (serving (pageOf 7)) world0)
  = after_loadListings (st world0) [] 1 false (serving (pageOf 7)) world0.
Proof.
  apply (loadMore_stops_after_short_page (st world0) [] 1 false
           (serving (pageOf 7)) (serving (pageOf 20)) world0 (pageOf 7) eq_refl).
  cbn. lia.
Defined.

(** The world after "load more" when it fires. *)
Lemma loadMore_fires (srv : Server) (w : World) :
  hasMoreListings (st w) = true -> loading (st w) = false ->
  after_loadMore srv w = after_loadListings (st w) [] (page (st w) + 1) true srv w.
Proof.
  intros Hm Hl. unfold after_loadMore, invoke, loadMoreListings, after_loadListings.
  rewrite Hm, Hl. reflexivity.
Qed.

(** X11.  A "load more" that fails and is tried again: the second try asks
    for the same page with the same request, and when it succeeds the result
    buffer holds the items of that page only, the pages shown before the
    failure being lost, while [page] says that page. *)
Theorem loadMore_retry_loses_pages :
  forall (srv : Server) w e (data : list Listing.t),
    hasMoreListings (st w) = true -> loading (st w) = false ->
    let req := listings_request (st w) [] (page (st w) + 1) in
    srv (length (net w)) req = inr e ->
    srv (S (length (net w))) req = inl data ->
    let w2 := after_loadMore srv (after_loadMore srv w) in
    net w2 = net w ++ [req; req] /\
    listings (st w2) = data /\
    page (st w2) = page (st w) + 1.
Proof.
  intros srv w e data Hm Hl req He Hd w2. subst w2 req.
  rewrite (loadMore_fires srv w Hm Hl).
  set (w1 := after_loadListings (st w) [] (page (st w) + 1) true srv w).
  assert (Hw1 : w1 = schedule 3000
            (sent (listings_request (st w) [] (page (st w) + 1))
               (upd_st (fun s =>
                  setLoading false
                    (setListings []
                       (setToast (Some (Toast.mk "Error loading listings" "error"))
                          (setLoading true s)))) w))).
  { subst w1. unfold after_loadListings.
    now rewrite (loadListings_failure (st w) [] (page (st w) + 1) true srv w e He). }
  assert (Hm1 : hasMoreListings (st w1) = true) by (rewrite Hw1; exact Hm).
  assert (Hl1 : loading (st w1) = false) by (rewrite Hw1; reflexivity).
  rewrite (loadMore_fires srv w1 Hm1 Hl1).
  assert (Hreq : listings_request (st w1) [] (page (st w1) + 1)
                 = listings_request (st w) [] (page (st w) + 1))
    by (rewrite Hw1; reflexivity).
  assert (Hlen : length (net w1) = S (length (net w))).
  { rewrite Hw1. cbn [net schedule sent upd_st]. rewrite length_app. cbn. lia. }
  assert (Hd1 : srv (length (net w1)) (listings_request (st w1) [] (page (st w1) + 1))
                = inl data).
  { rewrite Hlen. unfold listings_request in *. rewrite Hw1. exact Hd. }
  unfold after_loadListings.
  rewrite (loadListings_success (st w1) [] (page (st w1) + 1) true srv w1 data Hd1).
  rewrite Hreq. cbn [fst st net upd_st sent listings page setLoading setPage
                     setHasMoreListings setListings].
  rewrite Hw1. cbn [net schedule sent upd_st st listings page setLoading
                    setListings setToast app].
  rewrite <- app_assoc. auto.
Qed.

Lemma loadMore_retry_loses_pages_witness :
  let w := upd_st (fun s => setPage 3 (setListings (pageOf 60) s)) world0 in
  listings (st (after_loadMore (failing_once (pageOf 20))
                  (after_loadMore (failing_once (pageOf 20)) w)))
  = pageOf 20 /\
  page (st (after_loadMore (failing_once (pageOf 20))
              (after_loadMore (failing_once (pageOf 20)) w))) = 4.
Proof.
  cbv zeta.
  destruct (loadMore_retry_loses_pages (failing_once (pageOf 20))
              (upd_st (fun s => setPage 3 (setListings (pageOf 60) s)) world0)
              (mkError None) (pageOf 20) eq_refl eq_refl eq_refl eq_refl)
    as [_ [Hl Hp]].
  split; [exact Hl | exact Hp].
Defined.

(** X12.  Two "load more" in a row, the first of which returns a full page:
    the requests ask for the next two pages, the two answers are appended to
    the result buffer in that order, and [page] has advanced by 2. *)
Theorem loadMore_twice_accumulates :
  forall (srv : Server) w (d1 d2 : list Listing.t),
    hasMoreListings (st w) = true -> loading (st w) = false ->
    srv (length (net w)) (listings_request (st w) [] (page (st w) + 1)) = inl d1 ->
    length d1 = 20 ->
    srv (S (length (net w))) (listings_request (st w) [] (page (st w) + 2)) = inl d2 ->
    let w2 := after_loadMore srv (after_loadMore srv w) in
    net w2 = net w ++ [listings_request (st w) [] (page (st w) + 1);
                       listings_request (st w) [] (page (st w) + 2)] /\
    listings (st w2) = listings (st w) ++ d1 ++ d2 /\
    page (st w2) = page (st w) + 2 /\
    hasMoreListings (st w2) = (length d2 =? 20)%nat.
Proof.
  intros srv w d1 d2 Hm Hl H1 Hlen H2 w2. subst w2.
  rewrite (loadMore_fires srv w Hm Hl).
  set (w1 := after_loadListings (st w) [] (page (st w) + 1) true srv w).
  assert (Hw1 : w1 = sent (listings_request (st w) [] (page (st w) + 1))
            (upd_st (fun s =>
               setLoading false
                 (setPage (page (st w) + 1)
                    (setHasMoreListings (length d1 =? 20)%nat
                       (setListings (listings s ++ d1) (setLoading true s)))))
               w)).
  { subst w1. unfold after_loadListings.
    now rewrite (loadListings_success (st w) [] (page (st w) + 1) true srv w d1 H1). }
  assert (Hm1 : hasMoreListings (st w1) = true).
  { rewrite Hw1. cbn. rewrite Hlen. reflexivity. }
  assert (Hl1 : loading (st w1) = false) by (rewrite Hw1; reflexivity).
  rewrite (loadMore_fires srv w1 Hm1 Hl1).
  assert (Hp1 : page (st w1) + 1 = page (st w) + 2).
  { rewrite Hw1. cbn. lia. }
  assert (Hreq : listings_request (st w1) [] (page (st w1) + 1)
                 = listings_request (st w) [] (page (st w) + 2)).
  { rewrite Hp1. rewrite Hw1. reflexivity. }
  assert (Hlen1 : length (net w1) = S (length (net w))).
  { rewrite Hw1. cbn [net sent upd_st]. rewrite length_app. cbn. lia. }
  assert (Hd1 : srv (length (net w1)) (listings_request (st w1) [] (page (st w1) + 1))
                = inl d2).
  { rewrite Hlen1, Hp1. unfold listings_request in *. rewrite Hw1. exact H2. }
  unfold after_loadListings.
  rewrite (loadListings_success (st w1) [] (page (st w1) + 1) true srv w1 d2 Hd1).
  rewrite Hreq, Hp1. cbn [fst st net upd_st sent listings page hasMoreListings
                          setLoading setPage setHasMoreListings setListings].
  rewrite Hw1. cbn [net sent upd_st st listings setLoading setPage
                    setHasMoreListings setListings].
  rewrite <- !app_assoc. auto.
Qed.

Lemma loadMore_twice_accumulates_witness :
  let w := upd_st (fun s => setPage 3 (setListings (pageOf 60) s)) world0 in
  listings (st (after_loadMore (serving (pageOf 20))
                  (after_loadMore (serving (pageOf 20)) w)))
  = pageOf 60 ++ pageOf 20 ++ pageOf 20 /\
  page (st (after_loadMore (serving (pageOf 20))
              (after_loadMore (serving (pageOf 20)) w))) = 5.
Proof.
  cbv zeta.
  destruct (loadMore_twice_accumulates (serving (pageOf 20))
              (upd_st (fun s => setPage 3 (setListings (pageOf 60) s)) world0)
              (pageOf 20) (pageOf 20) eq_refl eq_refl eq_refl eq_refl eq_refl)
    as [_ [Hl [Hp _]]].
  split; [exact Hl | exact Hp].
Defined.

(* ===================================================================== *)
(** ** Favorites, messages and reviews of a signed-in user *)
(* ===================================================================== *)

(** X13.  Toggling a favorite while signed in: the listing is deleted from
    the favorites when one of the loaded favorites has its id and added
    otherwise; the local list is never edited, it is replaced by the answer
    to the [GET /favorites] that follows a successful change (and kept when
    that reload fails); when the change itself fails only the error toast is
    raised and no reload is sent. *)
Theorem toggleFavorite_signed_in :
  forall listingId (srv : Server) w u,
    user (st w) = Some u ->
    let w' := invoke (toggleFavorite listingId) srv w in
    let isFavorited :=
      existsb (fun fav => (Listing.id fav =? listingId)%nat) (favorites (st w)) in
    let change :=
      if isFavorited then DELETE_favorites listingId else POST_favorites listingId in
    let n := length (net w) in
    (forall e,
        (if isFavorited then srv n (DELETE_favorites listingId)
         else srv n (POST_favorites listingId)) = inr e ->
        net w' = net w ++ [change] /\
        favorites (st w') = favorites (st w) /\
        toast (st w') = Some (Toast.mk "Error updating favorites" "error")) /\
    ((if isFavorited then srv n (DELETE_favorites listingId)
      else srv n (POST_favorites listingId)) = inl tt ->
       net w' = net w ++ [change; GET_favorites] /\
       favorites (st w') =
         match srv (S n) GET_favorites with
         | inl loaded => loaded
         | inr _ => favorites (st w)
         end /\
       toast (st w') =
         Some (if isFavorited then Toast.mk "Removed from favorites" "info"
               else Toast.mk "Added to favorites" "success")).
Proof.
  intros listingId srv w u Hu w' isFav change n. subst w' change n.
  unfold invoke, toggleFavorite. rewrite Hu. fold isFav.
  assert (Hlen : length (net w ++ [DELETE_favorites listingId]) = S (length (net w)))
    by (rewrite length_app; cbn; lia).
  assert (Hlen' : length (net w ++ [POST_favorites listingId]) = S (length (net w)))
    by (rewrite length_app; cbn; lia).
  destruct isFav; split.
  - intros e He. cbn. rewrite He. cbn. auto.
  - intros Ha. cbn. rewrite Ha. cbn. unfold loadFavorites. cbn.
    rewrite Hlen. destruct (srv (S (length (net w))) GET_favorites); cbn;
      rewrite <- app_assoc; auto.
  - intros e He. cbn. rewrite He. cbn. auto.
  - intros Ha. cbn. rewrite Ha. cbn. unfold loadFavorites. cbn.
    rewrite Hlen'. destruct (srv (S (length (net w))) GET_favorites); cbn;
      rewrite <- app_assoc; auto.
Qed.

Lemma toggleFavorite_signed_in_witness :
  let w := upd_st (fun s => setFavorites [sampleListing] (setUser (Some sampleUser) s))
             world0 in
  net (invoke (toggleFavorite 1) accepting w) = [DELETE_favorites 1; GET_favorites] /\
  favorites (st (invoke (toggleFavorite 1) accepting w)) = [] /\
  net (invoke (toggleFavorite 2) accepting w) = [POST_favorites 2; GET_favorites].
Proof.
  cbv zeta.
  destruct (toggleFavorite_signed_in 1 accepting
              (upd_st (fun s => setFavorites [sampleListing]
                                  (setUser (Some sampleUser) s)) world0)
              sampleUser eq_refl) as [_ H1].
  destruct (toggleFavorite_signed_in 2 accepting
              (upd_st (fun s => setFavorites [sampleListing]
                                  (setUser (Some sampleUser) s)) world0)
              sampleUser eq_refl) as [_ H2].
  destruct (H1 eq_refl) as [Hn1 [Hf1 _]]. destruct (H2 eq_refl) as [Hn2 _].
  split; [exact Hn1|]. split; [exact Hf1 | exact Hn2].
Defined.

(** The calls of a message that was posted. *)
Lemma sendMessage_posted (receiverId listingId : nat) (content messageType : string)
  (offerAmount : option nat) (srv : Server) (w : World) (u : User.t) :
  user (st w) = Some u ->
  srv (length (net w))
      (POST_messages (mkMessageBody receiverId listingId content messageType
                        offerAmount)) = inl tt ->
  net (invoke (sendMessage receiverId listingId content messageType offerAmount)
         srv w)
  = net w ++ POST_messages (mkMessageBody receiverId listingId content messageType
                              offerAmount) :: reloads_after_message (st w) /\
  toast (st (invoke (sendMessage receiverId listingId content messageType
                       offerAmount) srv w)) = toast (st w).
Proof.
  intros Hu Ha.
  unfold invoke, sendMessage, reloads_after_message. rewrite Hu.
  cbn. rewrite Ha.
  destruct (selectedConversation (st w)) as [conv|];
    unfold loadMessages, loadConversations; cbn.
  - destruct (srv _ (GET_conversation_messages _)); cbn;
      destruct (srv _ GET_conversations); cbn;
      rewrite <- !app_assoc; auto.
  - destruct (srv _ GET_conversations); cbn; rewrite <- !app_assoc; auto.
Qed.

(** X14.  Sending a message while signed in posts it with the given
    receiver, listing, text, type and offer; when the post fails only the
    error toast is raised and nothing is reloaded; when it succeeds no toast
    is raised and the message is not added locally: the messages of the open
    conversation, if one is open, and then the conversation list are asked
    from the backend again. *)
Theorem sendMessage_signed_in :
  forall receiverId listingId content messageType offerAmount (srv : Server) w u,
    user (st w) = Some u ->
    let w' := invoke (sendMessage receiverId listingId content messageType
                        offerAmount) srv w in
    let post := POST_messages (mkMessageBody receiverId listingId content
                                 messageType offerAmount) in
    (forall e,
        srv (length (net w)) post = inr e ->
        net w' = net w ++ [post] /\
        toast (st w') = Some (Toast.mk "Error sending message" "error") /\
        messages (st w') = messages (st w) /\
        conversations (st w') = conversations (st w)) /\
    (srv (length (net w)) post = inl tt ->
       net w' = net w ++ post :: reloads_after_message (st w) /\
       toast (st w') = toast (st w)).
Proof.
  intros r l c t o srv w u Hu w' post. subst w' post.
  split.
  - intros e He. unfold invoke, sendMessage. rewrite Hu. cbn. rewrite He.
    cbn. auto.
  - intros Ha. exact (sendMessage_posted r l c t o srv w u Hu Ha).
Qed.

(** X15.  Opening a conversation selects it, asks for its messages and sets
    the view "chat", a view that neither router knows, so that both render
    the home page; a message sent from the next render reloads the messages
    of that conversation. *)
Theorem openConversation_then_send :
  forall conversation srv w u receiverId listingId content,
    user (st w) = Some u ->
    let w1 := invoke (openConversation conversation) srv w in
    let post := POST_messages (mkMessageBody receiverId listingId content "text"
                                 None) in
    let w2 := invoke (sendMessage receiverId listingId content "text" None) srv w1 in
    selectedConversation (st w1) = Some conversation /\
    net w1 = net w ++ [GET_conversation_messages (Conversation.id conversation)] /\
    (forall loaded,
        srv (length (net w))
            (GET_conversation_messages (Conversation.id conversation)) = inl loaded ->
        messages (st w1) = loaded) /\
    renderCurrentPage (currentPage (st w1)) = HomePage /\
    renderCurrentPage_variant (currentPage (st w1)) = HomePage /\
    (srv (length (net w1)) post = inl tt ->
       net w2 = net w1 ++
                [post; GET_conversation_messages (Conversation.id conversation);
                 GET_conversations]).
Proof.
  intros conv srv w u r l c Hu w1 post w2.
  assert (H1 : selectedConversation (st w1) = Some conv /\
               user (st w1) = Some u /\
               currentPage (st w1) = "chat" /\
               net w1 = net w ++ [GET_conversation_messages (Conversation.id conv)]).
  { subst w1. unfold invoke, openConversation, loadMessages. cbn.
    destruct (srv _ (GET_conversation_messages _)); cbn; auto. }
  destruct H1 as [Hs [Hu1 [Hc Hn]]].
  split; [exact Hs|]. split; [exact Hn|]. split.
  - intros loaded Ha. subst w1. unfold invoke, openConversation, loadMessages.
    cbn. rewrite Ha. reflexivity.
  - rewrite Hc. split; [reflexivity|]. split; [reflexivity|].
    intros Ha.
    destruct (sendMessage_posted r l c "text" None srv w1 u Hu1 Ha) as [Hn2 _].
    fold w2 in Hn2. rewrite Hn2.
    unfold reloads_after_message. rewrite Hs. reflexivity.
Qed.

Lemma sendMessage_signed_in_witness :
  net (invoke (sendMessage 2 3 "Still available?" "text" None) accepting
         world_signed_in)
  = [POST_messages (mkMessageBody 2 3 "Still available?" "text" None);
     GET_conversations] /\
  net (invoke (sendMessage 2 3 "Still available?" "text" None) rejecting
         world_signed_in)
  = [POST_messages (mkMessageBody 2 3 "Still available?" "text" None)].
Proof.
  destruct (sendMessage_signed_in 2 3 "Still available?" "text" None accepting
              world_signed_in sampleUser eq_refl) as [_ Hok].
  destruct (sendMessage_signed_in 2 3 "Still available?" "text" None rejecting
              world_signed_in sampleUser eq_refl) as [Hko _].
  destruct (Hok eq_refl) as [Hn _]. destruct (Hko (mkError None) eq_refl) as [Hn' _].
  split; [exact Hn | exact Hn'].
Defined.

Lemma openConversation_then_send_witness :
  net (invoke (sendMessage 2 1 "Deal" "text" None) accepting
         (invoke (openConversation sampleConversation) accepting world_signed_in))
  = [GET_conversation_messages 11;
     POST_messages (mkMessageBody 2 1 "Deal" "text" None);
     GET_conversation_messages 11; GET_conversations].
Proof.
  destruct (openConversation_then_send sampleConversation accepting
              world_signed_in sampleUser 2 1 "Deal" eq_refl)
    as [_ [Hn [_ [_ [_ Hs]]]]].
  rewrite (Hs eq_refl), Hn. reflexivity.
Defined.

(** X16.  Submitting a review while signed in posts it; when the post fails
    the toast shows the server's [detail] text, or "Error submitting review"
    when there is none, and the reviews are not reloaded; when it succeeds
    the success toast is raised and the reviews of the reviewed user are
    asked again, the loaded reviews being replaced by the answer. *)
Theorem submitReview_signed_in :
  forall reviewedUserId listingId rating comment (srv : Server) w u,
    user (st w) = Some u ->
    let w' := invoke (submitReview reviewedUserId listingId rating comment) srv w in
    let post := POST_reviews (mkReviewBody reviewedUserId listingId rating comment) in
    (forall e,
        srv (length (net w)) post = inr e ->
        net w' = net w ++ [post] /\
        toast (st w') = Some (Toast.mk (error_text e "Error submitting review")
                                "error") /\
        reviews (st w') = reviews (st w)) /\
    (srv (length (net w)) post = inl tt ->
       net w' = net w ++ [post; GET_user_reviews reviewedUserId] /\
       toast (st w') = Some (Toast.mk "Review submitted successfully" "success") /\
       reviews (st w') =
         match srv (S (length (net w))) (GET_user_reviews reviewedUserId) with
         | inl loaded => loaded
         | inr _ => reviews (st w)
         end).
Proof.
  intros r l rt c srv w u Hu w' post. subst w' post.
  unfold invoke, submitReview. rewrite Hu. split.
  - intros e He. cbn. rewrite He. cbn. repeat split.
  - intros Ha. cbn. rewrite Ha. cbn. unfold loadUserReviews. cbn.
    assert (Hlen : length (net w ++ [POST_reviews (mkReviewBody r l rt c)])
                   = S (length (net w))) by (rewrite length_app; cbn; lia).
    rewrite Hlen.
    destruct (srv (S (length (net w))) (GET_user_reviews r)); cbn;
      rewrite <- app_assoc; auto.
Qed.

Lemma submitReview_signed_in_witness :
  toast (st (invoke (submitReview 2 3 5 "Smooth deal")
                    (refusing "You already reviewed this user") world_signed_in))
  = Some (Toast.mk "You already reviewed this user" "error") /\
  net (invoke (submitReview 2 3 5 "Smooth deal") accepting world_signed_in)
  = [POST_reviews (mkReviewBody 2 3 5 "Smooth deal"); GET_user_reviews 2].
Proof.
  destruct (submitReview_signed_in 2 3 5 "Smooth deal"
              (refusing "You already reviewed this user") world_signed_in
              sampleUser eq_refl) as [Hko _].
  destruct (submitReview_signed_in 2 3 5 "Smooth deal" accepting world_signed_in
              sampleUser eq_refl) as [_ Hok].
  destruct (Hko (mkError (Some "You already reviewed this user")) eq_refl)
    as [_ [Ht _]].
  destruct (Hok eq_refl) as [Hn _].
  split; [exact Ht | exact Hn].
Defined.

(** X17.  The loaders of favorites, conversations, messages and reviews
    fail silently: when the call is rejected the state is left exactly as it
    was, stale data included, and no toast is raised; the only trace is the
    call that was sent. *)
Theorem loaders_fail_silently :
  forall (srv : Server) w conversationId userId,
    (forall e, srv (length (net w)) GET_favorites = inr e ->
               invoke loadFavorites srv w = sent GET_favorites w) /\
    (forall e, srv (length (net w)) GET_conversations = inr e ->
               invoke loadConversations srv w = sent GET_conversations w) /\
    (forall e, srv (length (net w)) (GET_conversation_messages conversationId) = inr e ->
               invoke (fun c => loadMessages c conversationId) srv w
               = sent (GET_conversation_messages conversationId) w) /\
    (forall e, srv (length (net w)) (GET_user_reviews userId) = inr e ->
               invoke (fun c => loadUserReviews c userId) srv w
               = sent (GET_user_reviews userId) w).
Proof.
  intros srv w cid uid.
  unfold invoke, loadFavorites, loadConversations, loadMessages, loadUserReviews.
  repeat split; intros e He; cbn; rewrite He; reflexivity.
Qed.

Lemma loaders_fail_silently_witness :
  let w := upd_st (setFavorites [sampleListing]) world_signed_in in
  favorites (st (invoke loadFavorites rejecting w)) = [sampleListing] /\
  toast (st (invoke loadFavorites rejecting w)) = None.
Proof.
  cbv zeta.
  destruct (loaders_fail_silently rejecting
              (upd_st (setFavorites [sampleListing]) world_signed_in) 0 0)
    as [Hf _].
  rewrite (Hf (mkError None) eq_refl). split; reflexivity.
Defined.

(* ===================================================================== *)
(** ** The results page of the variant *)
(* ===================================================================== *)

(** X18.  The list shown by the results page of the variant is never
    empty: it is the result buffer when the buffer holds something and the
    six sample phones otherwise; in particular after a failed fetch, which
    empties the buffer, the page lists the six sample phones. *)
Theorem filteredListings_never_empty :
  forall s,
    filteredListings s <> [] /\
    (listings s <> [] -> filteredListings s = listings s) /\
    (listings s = [] -> filteredListings s = samplePhones) /\
    forall c searchFilters pageNum append (srv : Server) w e,
      srv (length (net w)) (listings_request c searchFilters pageNum) = inr e ->
      filteredListings (st (after_loadListings c searchFilters pageNum append srv w))
      = samplePhones.
Proof.
  intros s. unfold filteredListings. repeat split.
  - destruct (listings s) eqn:E; cbn; discriminate.
  - intros H. destruct (listings s); [congruence | reflexivity].
  - intros ->. reflexivity.
  - intros c sf n app srv w e He. unfold after_loadListings.
    rewrite (loadListings_failure c sf n app srv w e He). reflexivity.
Qed.

Lemma toggle_In_self (v : string) (l : list string) :
  In v (toggle v l) <-> ~ In v l.
Proof.
  unfold toggle. destruct (existsb (String.eqb v) l) eqn:E.
  - apply existsb_eqb_In in E. rewrite filter_In. split.
    + intros [_ H]. rewrite String.eqb_refl in H. discriminate.
    + tauto.
  - apply existsb_eqb_not_In in E. rewrite in_app_iff. cbn. tauto.
Qed.

Lemma toggle_In_other (v x : string) (l : list string) :
  x <> v -> (In x (toggle v l) <-> In x l).
Proof.
  intros Hx. unfold toggle. destruct (existsb (String.eqb v) l).
  - rewrite filter_In. apply String.eqb_neq in Hx. rewrite Hx. cbn. tauto.
  - rewrite in_app_iff. cbn. split; [intros [H|[H|[]]]; [exact H|congruence] | tauto].
Qed.

Lemma toggle_NoDup (v : string) (l : list string) :
  NoDup l -> NoDup (toggle v l).
Proof.
  intros H. unfold toggle. destruct (existsb (String.eqb v) l) eqn:E.
  - now apply NoDup_filter.
  - apply existsb_eqb_not_In in E. now apply NoDup_snoc.
Qed.

Lemma toggle_twice (v : string) (l : list string) :
  ~ In v l -> toggle v (toggle v l) = l.
Proof.
  intros H. unfold toggle at 2.
  pose proof H as H'. apply existsb_eqb_not_In in H'. rewrite H'.
  unfold toggle.
  assert (E : existsb (String.eqb v) (l ++ [v]) = true).
  { apply existsb_eqb_In. rewrite in_app_iff. cbn. tauto. }
  rewrite E, filter_app. cbn. rewrite String.eqb_refl. cbn.
  rewrite app_nil_r. clear E H'.
  induction l as [|x l IH]; cbn; [reflexivity|].
  destruct (String.eqb_spec x v) as [->|_].
  - exfalso. apply H. now left.
  - cbn. f_equal. apply IH. intros I. apply H. now right.
Qed.

(** X19.  A check box of the filter panel toggles its value in the
    selection of its own kind: the value is selected afterwards exactly
    when it was not before, the other selected values stay, a selection
    without repetition stays so, and ticking a value that was not selected
    twice gives the panel back; the two other selections, the sort order and
    the price range are not touched, and an unknown kind changes nothing. *)
Theorem handleFilterChange_toggles :
  forall filterType value p,
    let p' := handleFilterChange filterType value p in
    (In filterType ["condition"; "brand"; "city"] ->
       (In value (selection filterType p') <-> ~ In value (selection filterType p)) /\
       (forall x, x <> value ->
                  (In x (selection filterType p') <-> In x (selection filterType p))) /\
       (NoDup (selection filterType p) -> NoDup (selection filterType p')) /\
       (~ In value (selection filterType p) ->
          handleFilterChange filterType value p' = p)) /\
    (forall other, other <> filterType -> selection other p' = selection other p) /\
    panel_sortBy p' = panel_sortBy p /\ priceRange p' = priceRange p /\
    (~ In filterType ["condition"; "brand"; "city"] -> p' = p).
Proof.
  intros t v p p'. subst p'. split; [|split; [|split; [|split]]].
  - intros [<-|[<-|[<-|[]]]]; cbn;
      (split; [apply toggle_In_self|];
       split; [intros x Hx; now apply toggle_In_other|];
       split; [apply toggle_NoDup|];
       intros H; rewrite (toggle_twice v _ H); destruct p; reflexivity).
  - intros other Ho. unfold handleFilterChange, selection.
    destruct (String.eqb_spec t "condition") as [->|]; cbn.
    + apply String.eqb_neq in Ho. rewrite Ho. reflexivity.
    + destruct (String.eqb_spec t "brand") as [->|]; cbn.
      * apply String.eqb_neq in Ho. rewrite Ho. reflexivity.
      * destruct (String.eqb_spec t "city") as [->|]; cbn; [|reflexivity].
        apply String.eqb_neq in Ho. rewrite Ho. reflexivity.
  - unfold handleFilterChange.
    destruct (t =? "condition"), (t =? "brand"), (t =? "city"); reflexivity.
  - unfold handleFilterChange.
    destruct (t =? "condition"), (t =? "brand"), (t =? "city"); reflexivity.
  - intros H. unfold handleFilterChange.
    destruct (String.eqb_spec t "condition") as [->|]; [exfalso; apply H; cbn; tauto|].
    destruct (String.eqb_spec t "brand") as [->|]; [exfalso; apply H; cbn; tauto|].
    destruct (String.eqb_spec t "city") as [->|]; [exfalso; apply H; cbn; tauto|].
    reflexivity.
Qed.

Lemma handleFilterChange_toggles_witness :
  selectedBrands (handleFilterChange "brand" "Apple"
                    (handleFilterChange "brand" "Samsung" initialPanel))
  = ["Samsung"; "Apple"] /\
  handleFilterChange "brand" "Apple" (handleFilterChange "brand" "Apple" initialPanel)
  = initialPanel.
Proof.
  split; [reflexivity|].
  destruct (handleFilterChange_toggles "brand" "Apple" initialPanel) as [H _].
  destruct H as [_ [_ [_ H]]]; [cbn; tauto|].
  apply H. intros [].
Defined.

(* ===================================================================== *)
(** ** The shop page *)
(* ===================================================================== *)


Section InsertionSort.

Variable key : Shop.phone -> Z.
Variable cmp : Shop.phone -> Shop.phone -> Z.
Hypothesis cmp_key : forall a b, cmp a b = (key a - key b)%Z.







End InsertionSort.




Example filteredPhones_price_low :
  map Shop.id
    (Shop.filteredPhones
       [ Shop.mkPhone 1 "Galaxy S24" "Samsung" 245000 30;
         Shop.mkPhone 2 "iPhone 15" "Apple" 285000 10;
         Shop.mkPhone 3 "Galaxy A54" "SAMSUNG" 95000 20;
         Shop.mkPhone 4 "Galaxy S23" "samsung" 95000 40 ]
       "samsung" "price-low")
  = [3; 4; 1].
Proof. reflexivity. Qed.




(* ===================================================================== *)
(** ** What a listings request never contains *)
(* ===================================================================== *)

Lemma of_nat_truthy (n : nat) : Js.truthy (Js.of_nat n) = true.
Proof.
  unfold Js.of_nat, NilZero.string_of_uint.
  destruct (Nat.to_uint n); reflexivity.
Qed.

Lemma param_name_renamed (k : string) :
  ~ In (param_name k) ["minPrice"; "maxPrice"; "sortBy"].
Proof.
  unfold param_name.
  destruct (String.eqb_spec k "minPrice") as [->|H1];
    [cbn; intuition discriminate|].
  destruct (String.eqb_spec k "maxPrice") as [->|H2];
    [cbn; intuition discriminate|].
  cbn [orb].
  destruct (String.eqb_spec k "sortBy") as [->|H3];
    [cbn; intuition discriminate|].
  cbn. intuition congruence.
Qed.

Lemma entry_params_sound (kv p : string * string) :
  In p (entry_params kv) ->
  Js.truthy (snd p) = true /\ fst p = param_name (fst kv) /\ fst kv <> "search".
Proof.
  unfold entry_params.
  destruct (Js.truthy (snd kv)) eqn:Ht; cbn [andb]; [|intros []].
  destruct (String.eqb_spec (fst kv) "search") as [E|E]; cbn [negb]; [intros []|].
  intros [<-|[]]. cbn. auto.
Qed.

(** X22.  Whatever the stored filters, the override object and the page, a
    listings request never carries a parameter with an empty value, never
    uses the names [minPrice], [maxPrice] or [sortBy] (they are sent as
    [min_price], [max_price] and [sort_by], also when they come from the
    override), and always ends with the requested page and the limit 20. *)
Theorem listing_params_never :
  forall f override pageNum,
    let params := listing_params f override pageNum in
    (forall p, In p params -> Js.truthy (snd p) = true) /\
    (forall p, In p params -> ~ In (fst p) ["minPrice"; "maxPrice"; "sortBy"]) /\
    exists filters_part,
      params = filters_part ++ [("page", Js.of_nat pageNum); ("limit", "20")].
Proof.
  intros f o n params. subst params. unfold listing_params.
  rewrite fold_append_entry. cbn [app].
  set (es := flat_map entry_params (Js.spread (entries f) o)).
  set (s := Js.or_undef (Js.get "search" o) (search f)).
  assert (Hes : forall p, In p es ->
                  Js.truthy (snd p) = true /\
                  ~ In (fst p) ["minPrice"; "maxPrice"; "sortBy"]).
  { intros p Hp. subst es. apply in_flat_map in Hp. destruct Hp as [kv [_ Hp]].
    apply entry_params_sound in Hp. destruct Hp as [Ht [Hn _]].
    split; [exact Ht|]. rewrite Hn. apply param_name_renamed. }
  assert (Hall : forall p,
            In p ((if Js.truthy s then es ++ [("search", s)] else es)
                  ++ [("page", Js.of_nat n)] ++ [("limit", "20")]) ->
            Js.truthy (snd p) = true /\
            ~ In (fst p) ["minPrice"; "maxPrice"; "sortBy"]).
  { intros p Hp. apply in_app_iff in Hp. destruct Hp as [Hp|Hp].
    - destruct (Js.truthy s) eqn:Hs; [|now apply Hes].
      apply in_app_iff in Hp. destruct Hp as [Hp|[<-|[]]]; [now apply Hes|].
      cbn. split; [exact Hs | intuition discriminate].
    - cbn in Hp. destruct Hp as [<-|[<-|[]]]; cbn;
        (split; [try apply of_nat_truthy; reflexivity | intuition discriminate]). }
  rewrite <- app_assoc.
  split; [intros p Hp; now apply Hall|].
  split; [intros p Hp; now apply Hall|].
  eexists. reflexivity.
Qed.

Example listing_params_renames_override :
  listing_params initialFilters [("minPrice", "100"); ("sortBy", "")] 2
  = [("min_price", "100"); ("page", "2"); ("limit", "20")].
Proof. reflexivity. Qed.

(* ===================================================================== *)
(** ** Keystrokes and reloads *)
(* ===================================================================== *)

(** X23.  A keystroke in the search box of the variant never reaches the
    backend: it stores the text as the search text of the box and of the
    filters, and the listings effect of the render that follows does not
    fire, the text being no dependency of it; the result buffer and the
    page are left as they were. *)
Theorem keystroke_sends_nothing :
  forall value srv w,
    let w' := invoke (then_render (handleSearchInput value)) srv w in
    w' = after_searchInput value srv w /\
    net w' = net w /\
    searchQuery (st w') = value /\
    filters (st w') = with_search value (filters (st w)) /\
    listings (st w') = listings (st w) /\
    page (st w') = page (st w).
Proof.
  intros value srv w w'. subst w'.
  assert (Hdeps : forall f, same_listing_deps f (with_search value f) = true).
  { intros f. unfold same_listing_deps, with_search. cbn.
    now rewrite !String.eqb_refl. }
  unfold after_searchInput, invoke, then_render, handleSearchInput, effect_filters.
  set (suggestions := firstn 6 _). clearbody suggestions.
  destruct (0 <? String.length value)%nat;
    cbn [bind setState run fst upd_st st filters setFilters setSearchQuery
         setSearchSuggestions setShowSuggestions];
    rewrite Hdeps; repeat split.
Qed.

(** X24.  The session across a reload of the page: after a login that
    succeeded the reloaded application starts with the access token of the
    response as its token (and no user yet); after a logout it starts
    without token, and so it does after the effect on the token has met a
    rejected [GET /auth/me]. *)
Theorem session_across_reload :
  forall loginData (srv : Server) w,
    Js.distinct_keys (localStorage w) ->
    (forall response,
        srv (length (net w)) (POST_auth_login loginData) = inl response ->
        token (st (reload (after_login loginData srv w)))
        = Some (access_token response) /\
        user (st (reload (after_login loginData srv w))) = None) /\
    token (st (reload (invoke handleLogout srv w))) = None /\
    (forall t e,
        token (st w) = Some t -> Js.truthy t = true ->
        srv (length (net w)) GET_auth_me = inr e ->
        token (st (reload (after_token_effect srv w))) = None /\
        user (st (reload (after_token_effect srv w))) = None).
Proof.
  intros d srv w Hd. split; [|split].
  - intros response Ha. unfold after_login, invoke, handleLogin, reload.
    cbn. rewrite Ha. cbn. rewrite get_set_same. auto.
  - unfold invoke, handleLogout, reload. cbn. now rewrite get_remove_same.
  - intros t e Ht Hy He.
    destruct (token_effect_failure srv w t e Ht Hy He) as [_ [_ [Hls _]]].
    unfold reload. rewrite Hls, get_remove_same by exact Hd. auto.
Qed.

Lemma session_across_reload_witness :
  token (st (reload (after_login sampleLogin accepting world0))) = Some "tok" /\
  token (st (reload (invoke handleLogout accepting
                       (after_login sampleLogin accepting world0)))) = None.
Proof.
  assert (H0 : Js.distinct_keys (localStorage world0)) by constructor.
  assert (H1 : Js.distinct_keys
                 (localStorage (after_login sampleLogin accepting world0))).
  { unfold Js.distinct_keys. cbn. repeat constructor. intros []. }
  destruct (session_across_reload sampleLogin accepting world0 H0) as [Hl _].
  destruct (session_across_reload sampleLogin accepting
              (after_login sampleLogin accepting world0) H1) as [_ [Ho _]].
  destruct (Hl (mkAuthResponse "tok" sampleUser) eq_refl) as [Ht _].
  split; [exact Ht | exact Ho].
Defined.
